(** * zap-stackdriver: the Stackdriver core decorator of [core.go]

    A shallow embedding of package [stackdriver] (file [core.go]): the
    severity table, the inline field serializer, the report-location
    capturer, the context accumulator and the core decorator, followed by
    the properties of the package's specification that concern them.

    Go values are modelled as the code has them: [int64] as [Z] with the
    wrap-around of conversions written out, pointers as locations of an
    explicit heap, [interface{}] payloads as a tagged union of the dynamic
    values the package can meet, panics as a result of the computation. *)

From Stdlib Require Import ZArith DecimalString.
From stdpp Require Import gmap strings list fin_maps.

Local Open Scope Z_scope.

(** ** Go data *)

(** Heap addresses: what a Go pointer holds when it is not [nil]. *)
Definition loc := positive.

(** [zapcore.Level] is an [int8]; the named levels are consecutive. *)
Definition Level := Z.
Definition DebugLevel : Level := -1.
Definition InfoLevel : Level := 0.
Definition WarnLevel : Level := 1.
Definition ErrorLevel : Level := 2.
Definition DPanicLevel : Level := 3.
Definition PanicLevel : Level := 4.
Definition FatalLevel : Level := 5.

(** [zapcore.FieldType], the declared kind of a field. *)
Inductive FieldType :=
| UnknownType
| ArrayMarshalerType
| ObjectMarshalerType
| BinaryType
| BoolType
| ByteStringType
| Complex128Type
| Complex64Type
| DurationType
| Float64Type
| Float32Type
| Int64Type
| Int32Type
| Int16Type
| Int8Type
| StringType
| TimeType
| TimeFullType
| Uint64Type
| Uint32Type
| Uint16Type
| Uint8Type
| UintptrType
| ReflectType
| NamespaceType
| StringerType
| ErrorType
| SkipType
| InlineMarshalerType.

(** What a panicking goroutine carries: the run-time error of a failed
    type assertion, a nil dereference, or the value some method passed to
    [panic]. *)
Inductive panic_value :=
| TypeAssertionError (want : string)
| NilDereference
| PanicValue (text : string).

(** The outcome of calling a method of a caller-supplied value. *)
Inductive call :=
| Returns (s : string)
| Panics (v : panic_value).

(** A [time.Time]: the instant in nanoseconds since the epoch and the name
    of its zone. *)
Record Time := mkTime { unix_nano : Z; zone : string }.

(** A dynamic value of a type foreign to this package, described by its
    method set: [String()] and [Error()], when the type has them. *)
Record dynval := mkDyn {
  dyn_type : string;
  dyn_String : option call;
  dyn_Error : option call
}.

(** The payload of [Field.Interface], a Go [interface{}]: the nil
    interface, a (possibly nil) pointer to one of the package's own
    structs, a [time.Time], or a foreign value. *)
Inductive iface :=
| nil_iface
| ptr_HTTPRequest (p : option loc)
| ptr_ReportLocation (p : option loc)
| ptr_ServiceContext (p : option loc)
| ptr_Context (p : option loc)
| val_Time (t : Time)
| val_dyn (d : dynval).

(** [zapcore.Field]. *)
Record Field := mkField {
  Key : string;
  Type_ : FieldType;
  Integer : Z;
  String_ : string;
  Interface : iface
}.

(** [zapcore.EntryCaller] and [zapcore.Entry]. *)
Record EntryCaller := mkCaller {
  Defined : bool;
  PC : Z;
  File : string;
  Line : Z
}.

Record Entry := mkEntry {
  Level_ : Level;
  LoggerName : string;
  Message : string;
  Caller : EntryCaller;
  Stack : string
}.

Definition set_Message (entry : Entry) (m : string) : Entry :=
  {| Level_ := Level_ entry; LoggerName := LoggerName entry; Message := m;
     Caller := Caller entry; Stack := Stack entry |}.

(** Modelled from the spec: the struct type [ReportLocation] is declared
    outside [core.go]; its fields are those that
    [getReportLocationFromEntry] fills: file path, line number and
    function name. *)
Record ReportLocation := mkReportLocation {
  FilePath : string;
  LineNumber : Z;
  FunctionName : string
}.

(** Modelled from the spec: the struct types [HTTPRequest] and
    [ServiceContext] are declared outside [core.go], which never looks
    inside them: opaque payloads supplied by the caller. *)
Record HTTPRequest := mkHTTPRequest { http_payload : string }.

Record ServiceContext := mkServiceContext { service_payload : string }.

(** Modelled from the spec: the struct type [Context] is declared outside
    [core.go]; its fields are the three slots that [extractCtx] assigns,
    the user as a string and the two descriptors behind pointers. *)
Record Context := mkContext {
  User : string;
  ctx_HTTPRequest : option loc;
  ctx_ReportLocation : option loc
}.

Inductive obj :=
| OContext (c : Context)
| OHTTPRequest (r : HTTPRequest)
| OReportLocation (r : ReportLocation)
| OServiceContext (r : ServiceContext).

(** The wrapped [zapcore.Core] is an interface value of the zap library.
    The model keeps what this package can observe of it: the fields bound
    by [With], its enablement decision and the error its [Write] and
    [Sync] answer with. *)
Record zapCore := mkZapCore {
  bound : list Field;
  enabled_at : Level → bool;
  write_error : Entry → list Field → option string;
  sync_error : option string
}.

Definition zapCore_With (d : zapCore) (fields : list Field) : zapCore :=
  {| bound := bound d ++ fields; enabled_at := enabled_at d;
     write_error := write_error d; sync_error := sync_error d |}.

(** [Core]: the embedded downstream core, the flag and the context
    pointer ([None] is Go's [nil]). *)
Record Core := mkCore {
  downstream : zapCore;
  SetReportLocation : bool;
  ctx : option loc
}.

(** ** The machine state and the monad of Go computations *)

(** The heap of structs, the lines written to standard output, and the
    calls received by downstream cores. *)
Record State := mkState {
  heap : gmap loc obj;
  stdout : list string;
  sink : list (zapCore * Entry * list Field)
}.

Definition set_heap (s : State) (h : gmap loc obj) : State :=
  {| heap := h; stdout := stdout s; sink := sink s |}.

Inductive result (A : Type) :=
| Ok (a : A)
| Panic (v : panic_value).
Arguments Ok {A} a.
Arguments Panic {A} v.

(** A computation runs on a state and either returns or panics; the
    effects made before a panic stay. *)
Definition M (A : Type) : Type := State → result A * State.

#[export] Instance M_ret : MRet M := λ A a s, (Ok a, s).

#[export] Instance M_bind : MBind M := λ A B k m s,
  match m s with
  | (Ok a, s') => k a s'
  | (Panic v, s') => (Panic v, s')
  end.

Definition panic {A} (v : panic_value) : M A := λ s, (Panic v, s).

(** [new(T)] / [&T{...}]: a fresh address. *)
Definition alloc (o : obj) : M loc :=
  λ s, let l := fresh (dom (heap s)) in (Ok l, set_heap s (<[l := o]> (heap s))).

Definition Println (line : string) : M unit :=
  λ s, (Ok tt, {| heap := heap s; stdout := stdout s ++ [line]; sink := sink s |}).

(** A function body under [defer func() { if r := recover(); r != nil
    { handler r } }()] whose result is unnamed: a panic of the body is
    stopped, the handler runs, and the function returns the zero value of
    its result type. *)
Definition defer_recover {A} (zero : A) (handler : panic_value → M unit)
    (body : M A) : M A :=
  λ s, match body s with
       | (Ok a, s') => (Ok a, s')
       | (Panic v, s') =>
           match handler v s' with
           | (Ok _, s'') => (Ok zero, s'')
           | (Panic v', s'') => (Panic v', s'')
           end
       end.

(** Reading and writing a struct through a pointer; a pointer that holds
    no struct of the expected type cannot arise in Go, the model answers
    it with a panic. *)
Definition load_Context (l : loc) : M Context :=
  λ s, match heap s !! l with
       | Some (OContext c) => (Ok c, s)
       | _ => (Panic NilDereference, s)
       end.

Definition load_HTTPRequest (l : loc) : M HTTPRequest :=
  λ s, match heap s !! l with
       | Some (OHTTPRequest r) => (Ok r, s)
       | _ => (Panic NilDereference, s)
       end.

Definition load_ReportLocation (l : loc) : M ReportLocation :=
  λ s, match heap s !! l with
       | Some (OReportLocation r) => (Ok r, s)
       | _ => (Panic NilDereference, s)
       end.

Definition store_Context (l : loc) (c : Context) : M unit :=
  λ s, (Ok tt, set_heap s (<[l := OContext c]> (heap s))).

Definition store_ReportLocation (l : loc) (r : ReportLocation) : M unit :=
  λ s, (Ok tt, set_heap s (<[l := OReportLocation r]> (heap s))).

(** ** Integer conversions and [strconv] *)

Definition int64 (z : Z) : Z := (z + 2 ^ 63) `mod` 2 ^ 64 - 2 ^ 63.
Definition uint64 (z : Z) : Z := z `mod` 2 ^ 64.
Definition uint32 (z : Z) : Z := z `mod` 2 ^ 32.

(** [strconv.FormatInt(i, 10)] and [strconv.FormatUint(u, 10)]. *)
Definition FormatInt (i : Z) : string := NilZero.string_of_int (Z.to_int i).
Definition FormatUint (u : Z) : string := NilZero.string_of_uint (N.to_uint (Z.to_N u)).

(** [fmt.Sprintf("%v", s)] on a string operand. *)
Definition Sprintf_v (s : string) : string := s.

(** ** Constants and the severity table *)

Definition logKeyServiceContext : string := "serviceContext".
Definition logKeyContextHTTPRequest : string := "context.httpRequest".
Definition logKeyContextUser : string := "context.user".
Definition logKeyContextReportLocation : string := "context.reportLocation".

Definition logLevelSeverity : gmap Level string :=
  list_to_map [
    (DebugLevel, "DEBUG");
    (InfoLevel, "INFO");
    (WarnLevel, "WARNING");
    (ErrorLevel, "ERROR");
    (DPanicLevel, "CRITICAL");
    (PanicLevel, "ALERT");
    (FatalLevel, "EMERGENCY")
  ].

(** Indexing a Go map: the zero value of the element type when the key is
    absent. *)
Definition map_index (m : gmap Level string) (k : Level) : string :=
  default "" (m !! k).

(** A [zapcore.PrimitiveArrayEncoder], as the strings appended to it. *)
Definition PrimitiveArrayEncoder := list string.

Definition AppendString (enc : PrimitiveArrayEncoder) (s : string)
    : PrimitiveArrayEncoder := enc ++ [s].

Definition EncodeLevel (lv : Level) (enc : PrimitiveArrayEncoder)
    : PrimitiveArrayEncoder :=
  AppendString enc (map_index logLevelSeverity lv).

(** ** Field constructors *)

(** The field constructors of package [zap] used below, as the library
    defines them: every integer kind stores [int64(val)] in
    [Integer], a boolean stores 1 or 0, a duration its nanoseconds. *)
Definition zap_Object (key : string) (val : iface) : Field :=
  mkField key ObjectMarshalerType 0 "" val.
Definition zap_String (key val : string) : Field :=
  mkField key StringType 0 val nil_iface.
Definition zap_Bool (key : string) (val : bool) : Field :=
  mkField key BoolType (if val then 1 else 0) "" nil_iface.
Definition zap_Duration (key : string) (val : Z) : Field :=
  mkField key DurationType (int64 val) "" nil_iface.
Definition zap_Int32 (key : string) (val : Z) : Field :=
  mkField key Int32Type (int64 val) "" nil_iface.
Definition zap_Uint64 (key : string) (val : Z) : Field :=
  mkField key Uint64Type (int64 val) "" nil_iface.
Definition zap_Uint32 (key : string) (val : Z) : Field :=
  mkField key Uint32Type (int64 val) "" nil_iface.
Definition zap_Uint16 (key : string) (val : Z) : Field :=
  mkField key Uint16Type (int64 val) "" nil_iface.
Definition zap_Uint8 (key : string) (val : Z) : Field :=
  mkField key Uint8Type (int64 val) "" nil_iface.
Definition zap_Uintptr (key : string) (val : Z) : Field :=
  mkField key UintptrType (int64 val) "" nil_iface.
Definition zap_Stringer (key : string) (val : iface) : Field :=
  mkField key StringerType 0 "" val.
Definition zap_NamedError (key : string) (val : iface) : Field :=
  mkField key ErrorType 0 "" val.

Definition LogServiceContext (p : option loc) : Field :=
  zap_Object logKeyServiceContext (ptr_ServiceContext p).

Definition LogHTTPRequest (req : option loc) : Field :=
  zap_Object logKeyContextHTTPRequest (ptr_HTTPRequest req).

Definition LogUser (user : string) : Field :=
  zap_String logKeyContextUser user.

Definition LogReportLocation (l : option loc) : Field :=
  zap_Object logKeyContextReportLocation (ptr_ReportLocation l).

(** ** Type assertions *)

(** The assertions [x.(T)] to a pointer type of the package and to
    [time.Time], in the single-result form: a panic when the dynamic type
    differs (the nil interface included). *)
Definition assert_ptr_HTTPRequest (x : iface) : M (option loc) :=
  match x with
  | ptr_HTTPRequest p => mret p
  | _ => panic (TypeAssertionError "*stackdriver.HTTPRequest")
  end.

Definition assert_ptr_ReportLocation (x : iface) : M (option loc) :=
  match x with
  | ptr_ReportLocation p => mret p
  | _ => panic (TypeAssertionError "*stackdriver.ReportLocation")
  end.

Definition assert_Time (x : iface) : M Time :=
  match x with
  | val_Time t => mret t
  | _ => panic (TypeAssertionError "time.Time")
  end.

(** Calling the method found by an assertion to an interface type. *)
Definition invoke (c : call) : M string :=
  match c with
  | Returns s => mret s
  | Panics v => panic v
  end.

Definition assert_error (x : iface) : M call :=
  match x with
  | val_dyn d =>
      match dyn_Error d with
      | Some c => mret c
      | None => panic (TypeAssertionError "error")
      end
  | _ => panic (TypeAssertionError "error")
  end.

(** The text [fmt.Println] shows for a recovered value (for a failed
    assertion, the target type stands for the runtime's full message). *)
Definition panic_text (v : panic_value) : string :=
  match v with
  | TypeAssertionError want => "interface conversion: not " +:+ want
  | NilDereference => "runtime error: invalid memory address or nil pointer dereference"
  | PanicValue text => text
  end.

(** What the Go runtime and library contribute and the model leaves open:
    the text of a float given by its IEEE bits ([strconv.FormatFloat] with
    format ['e'] and precision 2, for a bit size), the text of an instant
    ([time.Time.String]) and the function name of a program counter
    ([runtime.FuncForPC], [None] when it answers [nil]). *)
Record Runtime := mkRuntime {
  FormatFloat_e2 : Z → Z → string;
  Time_String : Time → string;
  FuncForPC_Name : Z → option string
}.

Section Stackdriver.

Variable rt : Runtime.

(** [x.(fmt.Stringer)]: [time.Time] has a [String] method, a foreign value
    has one when its method set says so, the package's own pointers are
    marshalers only. *)
Definition assert_Stringer (x : iface) : M call :=
  match x with
  | val_Time t => mret (Returns (Time_String rt t))
  | val_dyn d =>
      match dyn_String d with
      | Some c => mret c
      | None => panic (TypeAssertionError "fmt.Stringer")
      end
  | _ => panic (TypeAssertionError "fmt.Stringer")
  end.

(** ** The field serializer *)

(** The [switch] of [fieldValueToString]. *)
Definition fieldValueToString_switch (field : Field) : M string :=
  match Type_ field with
  | ArrayMarshalerType => mret ""
  | ObjectMarshalerType => mret ""
  | BinaryType => mret ""
  | BoolType => mret (FormatInt (Integer field))
  | ByteStringType => mret ""
  | Complex128Type => mret ""
  | Complex64Type => mret ""
  | DurationType => mret (FormatInt (Integer field ÷ 1000000))
  | Float64Type => mret (FormatFloat_e2 rt 64 (uint64 (Integer field)))
  | Float32Type => mret (FormatFloat_e2 rt 32 (uint32 (Integer field)))
  | Int64Type => mret (FormatInt (Integer field))
  | Int32Type => mret (FormatInt (Integer field))
  | Int16Type => mret (FormatInt (Integer field))
  | Int8Type => mret (FormatInt (Integer field))
  | StringType => mret (String_ field)
  | TimeType => mret (Time_String rt (mkTime (Integer field) "Local"))
  | TimeFullType => t ← assert_Time (Interface field); mret (Time_String rt t)
  | Uint64Type => mret (FormatInt (Integer field))
  | Uint32Type => mret (FormatInt (Integer field))
  | Uint16Type => mret (FormatInt (Integer field))
  | Uint8Type => mret (FormatInt (Integer field))
  | UintptrType => mret (FormatInt (Integer field))
  | ReflectType => mret ""
  | NamespaceType => mret ""
  | StringerType => m ← assert_Stringer (Interface field); invoke m
  | ErrorType => m ← assert_error (Interface field); invoke m
  | SkipType => mret ""
  | UnknownType | InlineMarshalerType => mret ""
  end.

Definition fieldValueToString (c : Core) (field : Field) : M string :=
  defer_recover ""
    (λ r, Println ("Recovered fieldValueToString: " +:+ panic_text r))
    (fieldValueToString_switch field).

(** [appendFields]: the loop over the fields, writing to the builder. *)
Fixpoint appendFields_loop (c : Core) (fields : list Field) (builder : string)
    : M string :=
  match fields with
  | [] => mret builder
  | field :: rest =>
      if decide (Key field = "context") then appendFields_loop c rest builder
      else
        v ← fieldValueToString c field;
        appendFields_loop c rest
          (builder +:+ " " +:+ Key field +:+ "=" +:+ Sprintf_v v)
  end.

Definition appendFields (c : Core) (str : string) (fields : list Field)
    : M string :=
  appendFields_loop c fields str.

(** ** The context accumulator *)

(** Modelled from the spec: the copy of a request descriptor that
    [Context.Clone] makes, a fresh struct with the same content (nil for
    nil). *)
Definition HTTPRequest_Clone (p : option loc) : M (option loc) :=
  match p with
  | None => mret None
  | Some l => r ← load_HTTPRequest l; l' ← alloc (OHTTPRequest r); mret (Some l')
  end.

(** Modelled from the spec: the copy of a location descriptor that
    [Context.Clone] makes, a fresh struct with the same content (nil for
    nil). *)
Definition ReportLocation_Clone (p : option loc) : M (option loc) :=
  match p with
  | None => mret None
  | Some l =>
      r ← load_ReportLocation l; l' ← alloc (OReportLocation r); mret (Some l')
  end.

(** Modelled from the spec: [Context.Clone], which this package declares
    beside [Context], outside [core.go]. The spec asks for a deep-enough
    copy, one that a later mutation of the copy never shows through the
    original: a new [Context] struct that holds the user text and fresh
    copies of the request and location descriptors. *)
Definition Context_Clone (l : loc) : M loc :=
  c ← load_Context l;
  req ← HTTPRequest_Clone (ctx_HTTPRequest c);
  rl ← ReportLocation_Clone (ctx_ReportLocation c);
  alloc (OContext (mkContext (User c) req rl)).

Definition cloneCtx (c : Core) : M loc :=
  match ctx c with
  | None => alloc (OContext (mkContext "" None None))
  | Some l => Context_Clone l
  end.

(** One iteration of the loop of [extractCtx]: the [switch] on the key. *)
Definition extractCtx_case (ctx : loc) (f : Field) (output : list Field)
    : M (list Field) :=
  if decide (Key f = logKeyContextHTTPRequest) then
    p ← assert_ptr_HTTPRequest (Interface f);
    c ← load_Context ctx;
    _ ← store_Context ctx (mkContext (User c) p (ctx_ReportLocation c));
    mret output
  else if decide (Key f = logKeyContextReportLocation) then
    p ← assert_ptr_ReportLocation (Interface f);
    c ← load_Context ctx;
    _ ← store_Context ctx (mkContext (User c) (ctx_HTTPRequest c) p);
    mret output
  else if decide (Key f = logKeyContextUser) then
    c ← load_Context ctx;
    _ ← store_Context ctx
          (mkContext (String_ f) (ctx_HTTPRequest c) (ctx_ReportLocation c));
    mret output
  else mret (output ++ [f]).

Fixpoint extractCtx_loop (ctx : loc) (fields output : list Field)
    : M (list Field) :=
  match fields with
  | [] => mret output
  | f :: rest =>
      output' ← extractCtx_case ctx f output;
      extractCtx_loop ctx rest output'
  end.

Definition extractCtx (c : Core) (fields : list Field) : M (list Field * loc) :=
  ctx ← cloneCtx c;
  output ← extractCtx_loop ctx fields [];
  mret (output, ctx).

(** ** The report-location capturer *)

Definition getReportLocationFromEntry (c : Core) (entry : Entry)
    : M (option loc) :=
  if negb (SetReportLocation c) then mret None
  else
    let caller := Caller entry in
    if negb (Defined caller) then mret None
    else
      l ← alloc (OReportLocation (mkReportLocation (File caller) (Line caller) ""));
      _ ← (match FuncForPC_Name rt (PC caller) with
           | Some name =>
               store_ReportLocation l
                 (mkReportLocation (File caller) (Line caller) name)
           | None => mret tt
           end : M unit);
      mret (Some l).

(** ** The core decorator *)

Definition With (c : Core) (fields : list Field) : M Core :=
  '(fields, ctx) ← extractCtx c fields;
  mret {| downstream := zapCore_With (downstream c) fields;
          SetReportLocation := SetReportLocation c;
          ctx := Some ctx |}.

(** The downstream [Write]: the call is recorded, the core's error (or
    [None] for [nil]) is the answer. *)
Definition zapCore_Write (d : zapCore) (entry : Entry) (fields : list Field)
    : M (option string) :=
  λ s, (Ok (write_error d entry fields),
        {| heap := heap s; stdout := stdout s;
           sink := sink s ++ [(d, entry, fields)] |}).

(** The first statements of [Write]: the field list after the optional
    report-location field is appended. *)
Definition Write_fields (c : Core) (entry : Entry) (fields : list Field)
    : M (list Field) :=
  loc ← getReportLocationFromEntry c entry;
  match loc with
  | Some l => mret (fields ++ [LogReportLocation (Some l)])
  | None => mret fields
  end.

Definition Write (c : Core) (entry : Entry) (fields : list Field)
    : M (option string) :=
  fields ← Write_fields c entry fields;
  '(fields, ctx) ← extractCtx c fields;
  let fields := fields ++ [zap_Object "context" (ptr_Context (Some ctx))] in
  message ← appendFields c (Message entry) fields;
  zapCore_Write (downstream c) (set_Message entry message) fields.

(** [Enabled] is promoted from the embedded core; [Check] adds this core
    to the checked entry, modelled as the list of the cores added. *)
Definition Enabled (c : Core) (lv : Level) : bool := enabled_at (downstream c) lv.

Definition Check (c : Core) (entry : Entry) (ce : list (Entry * Core))
    : list (Entry * Core) :=
  if Enabled c (Level_ entry) then ce ++ [(entry, c)] else ce.

Definition Sync (c : Core) : M (option string) :=
  mret (sync_error (downstream c)).

End Stackdriver.

(** ** Vocabulary of the properties *)

(** The three keys that [extractCtx] consumes. *)
Definition reserved_keys : list string :=
  [logKeyContextHTTPRequest; logKeyContextUser; logKeyContextReportLocation].

(** The payload of a reserved field has the shape its [case] asserts:
    the field was built by [LogHTTPRequest] or [LogReportLocation], or
    carries the same pointer type. *)
Definition payload_ok (f : Field) : bool :=
  if decide (Key f = logKeyContextHTTPRequest) then
    match Interface f with ptr_HTTPRequest _ => true | _ => false end
  else if decide (Key f = logKeyContextReportLocation) then
    match Interface f with ptr_ReportLocation _ => true | _ => false end
  else true.

Definition payloads_ok (fields : list Field) : bool := forallb payload_ok fields.

(** The pointer a field carries in [Interface]. *)
Definition pointer_of (x : iface) : option loc :=
  match x with
  | ptr_HTTPRequest p | ptr_ReportLocation p
  | ptr_ServiceContext p | ptr_Context p => p
  | _ => None
  end.

(** The effect of one field on the context struct, and of a field list
    taken in order. *)
Definition write_slot (cx : Context) (f : Field) : Context :=
  if decide (Key f = logKeyContextHTTPRequest) then
    mkContext (User cx) (pointer_of (Interface f)) (ctx_ReportLocation cx)
  else if decide (Key f = logKeyContextReportLocation) then
    mkContext (User cx) (ctx_HTTPRequest cx) (pointer_of (Interface f))
  else if decide (Key f = logKeyContextUser) then
    mkContext (String_ f) (ctx_HTTPRequest cx) (ctx_ReportLocation cx)
  else cx.

Definition write_slots (cx : Context) (fields : list Field) : Context :=
  fold_left write_slot fields cx.

(** The last field of a list that has a given key. *)
Definition last_keyed (k : string) (fields : list Field) : option Field :=
  last (filter (λ f, Key f = k) fields).

(** The ordinary fields of a list: those whose key is not reserved. *)
Definition ordinary (fields : list Field) : list Field :=
  filter (λ f, Key f ∉ reserved_keys) fields.

Definition add_stdout (s : State) (lines : list string) : State :=
  {| heap := heap s; stdout := stdout s ++ lines; sink := sink s |}.

(** The outcome of the [switch] of [fieldValueToString], which reads no
    state; what the caller of [fieldValueToString] receives; what the
    deferred function prints. *)
Definition switch_result (rt : Runtime) (field : Field) : result string :=
  (fieldValueToString_switch rt field (mkState ∅ [] [])).1.

Definition rendered (rt : Runtime) (field : Field) : string :=
  match switch_result rt field with
  | Ok t => t
  | Panic _ => ""
  end.

Definition recovered_lines (rt : Runtime) (field : Field) : list string :=
  match switch_result rt field with
  | Ok _ => []
  | Panic v => ["Recovered fieldValueToString: " +:+ panic_text v]
  end.

(** The inline text of one field, and of a field list. *)
Definition inline (rt : Runtime) (f : Field) : string :=
  " " +:+ Key f +:+ "=" +:+ rendered rt f.

Definition inline_all (rt : Runtime) (fields : list Field) : string :=
  foldr (λ f acc, inline rt f +:+ acc) "" fields.

(** A state [s'] reached from [s] by writing at most the struct at [l]. *)
Definition writes_only (l : loc) (s s' : State) : Prop :=
  (∀ l', l' ≠ l → heap s' !! l' = heap s !! l') ∧
  stdout s' = stdout s ∧ sink s' = sink s.

(** What an observer of a node sees of its context: the user and the
    descriptors behind the two pointers. [None] when a pointer holds no
    struct of its type, which Go excludes. The nil context of a root node
    shows as the empty context. *)
Definition ContextView : Type :=
  string * option HTTPRequest * option ReportLocation.

Definition view_HTTPRequest (h : gmap loc obj) (p : option loc)
    : option (option HTTPRequest) :=
  match p with
  | None => Some None
  | Some l =>
      match h !! l with
      | Some (OHTTPRequest r) => Some (Some r)
      | _ => None
      end
  end.

Definition view_ReportLocation (h : gmap loc obj) (p : option loc)
    : option (option ReportLocation) :=
  match p with
  | None => Some None
  | Some l =>
      match h !! l with
      | Some (OReportLocation r) => Some (Some r)
      | _ => None
      end
  end.

Definition observe (h : gmap loc obj) (c : Core) : option ContextView :=
  match ctx c with
  | None => Some ("", None, None)
  | Some l =>
      match h !! l with
      | Some (OContext x) =>
          match view_HTTPRequest h (ctx_HTTPRequest x),
                view_ReportLocation h (ctx_ReportLocation x) with
          | Some req, Some rl => Some (User x, req, rl)
          | _, _ => None
          end
      | _ => None
      end
  end.

(** ** Sample values *)

Definition sample_runtime : Runtime :=
  {| FormatFloat_e2 := λ _ _, "0.00e+00";
     Time_String := λ _, "1970-01-01 00:00:00 +0000 UTC";
     FuncForPC_Name := λ pc, if decide (pc = 4198400) then Some "main.handler" else None |}.

Definition sample_sink : zapCore :=
  {| bound := []; enabled_at := λ _, true;
     write_error := λ _ _, None; sync_error := None |}.

Definition root_core (flag : bool) : Core :=
  {| downstream := sample_sink; SetReportLocation := flag; ctx := None |}.

Definition initial_state : State := {| heap := ∅; stdout := []; sink := [] |}.

Definition sample_entry : Entry :=
  {| Level_ := InfoLevel; LoggerName := "app"; Message := "request served";
     Caller := {| Defined := true; PC := 4198400; File := "main.go"; Line := 42 |};
     Stack := "" |}.

Definition sample_entry_no_caller : Entry :=
  {| Level_ := InfoLevel; LoggerName := "app"; Message := "request served";
     Caller := {| Defined := false; PC := 0; File := ""; Line := 0 |};
     Stack := "" |}.

(** A state with a request descriptor, a location descriptor and a node
    whose context points to both. *)
Definition sample_state : State :=
  {| heap := {[ 1%positive := OHTTPRequest (mkHTTPRequest "GET /");
                2%positive := OContext (mkContext "bob" (Some 1%positive)
                                          (Some 3%positive));
                3%positive := OReportLocation
                                (mkReportLocation "old.go" 7 "main.old") ]};
     stdout := []; sink := [] |}.

Definition sample_node : Core :=
  {| downstream := sample_sink; SetReportLocation := true; ctx := Some 2%positive |}.

(** A state [s'] reached from [s] by allocation only. *)
Definition grows (s s' : State) : Prop :=
  heap s ⊆ heap s' ∧ stdout s' = stdout s ∧ sink s' = sink s.

(** The state after the sample node's context is cloned. *)
Definition sample_cloned : State := (cloneCtx sample_node sample_state).2.

Definition sample_fields : list Field :=
  [LogUser "alice"; LogReportLocation (Some 3%positive); zap_Int32 "retries" 3;
   LogServiceContext None; LogUser "carol"].

Definition sample_misused_fields : list Field :=
  [LogUser "alice"; zap_String logKeyContextHTTPRequest "GET /";
   zap_Int32 "retries" 3].

Definition sample_context_keyed_fields : list Field :=
  [zap_String "context" "x"; zap_Int32 "retries" 3].

(** ** Further vocabulary *)

(** The context fields of a list: those whose key is reserved. *)
Definition reserved (fields : list Field) : list Field :=
  filter (λ f, Key f ∈ reserved_keys) fields.

(** The context of a root node: what [cloneCtx] builds for a nil
    pointer. *)
Definition empty_Context : Context := mkContext "" None None.

(** The field that [Write] appends for the merged context. *)
Definition context_field (lctx : loc) : Field :=
  zap_Object "context" (ptr_Context (Some lctx)).

(** More sample values. *)
Definition sample_plain_fields : list Field :=
  [zap_Int32 "retries" 3; LogServiceContext None].

Definition sample_user_fields : list Field :=
  [LogUser "alice"; zap_Int32 "retries" 3].

Definition sample_child : Core :=
  {| downstream := zapCore_With (downstream sample_node) (ordinary sample_fields);
     SetReportLocation := true;
     ctx := Some 6%positive |}.

(** * Properties *)

(** ** The severity table *)

Lemma logLevelSeverity_lookups :
  logLevelSeverity !! DebugLevel = Some "DEBUG" ∧
  logLevelSeverity !! InfoLevel = Some "INFO" ∧
  logLevelSeverity !! WarnLevel = Some "WARNING" ∧
  logLevelSeverity !! ErrorLevel = Some "ERROR" ∧
  logLevelSeverity !! DPanicLevel = Some "CRITICAL" ∧
  logLevelSeverity !! PanicLevel = Some "ALERT" ∧
  logLevelSeverity !! FatalLevel = Some "EMERGENCY".
Proof. repeat split; vm_compute; reflexivity. Qed.

(** C7. The severity mapper sends each of the seven levels of the table
    to exactly one token: debug to DEBUG, info to INFO, warn to WARNING,
    error to ERROR, dpanic to CRITICAL, panic to ALERT and fatal to
    EMERGENCY; [EncodeLevel] appends that token, and nothing else, to the
    encoder; the table has these seven keys and no other. *)
Theorem EncodeLevel_severity (enc : PrimitiveArrayEncoder) :
  EncodeLevel DebugLevel enc = enc ++ ["DEBUG"] ∧
  EncodeLevel InfoLevel enc = enc ++ ["INFO"] ∧
  EncodeLevel WarnLevel enc = enc ++ ["WARNING"] ∧
  EncodeLevel ErrorLevel enc = enc ++ ["ERROR"] ∧
  EncodeLevel DPanicLevel enc = enc ++ ["CRITICAL"] ∧
  EncodeLevel PanicLevel enc = enc ++ ["ALERT"] ∧
  EncodeLevel FatalLevel enc = enc ++ ["EMERGENCY"] ∧
  dom logLevelSeverity =
    list_to_set [DebugLevel; InfoLevel; WarnLevel; ErrorLevel; DPanicLevel;
                 PanicLevel; FatalLevel].
Proof.
  destruct logLevelSeverity_lookups as (Hd & Hi & Hw & He & Hdp & Hp & Hf).
  unfold EncodeLevel, AppendString, map_index.
  rewrite Hd, Hi, Hw, He, Hdp, Hp, Hf. simpl.
  repeat split.
Qed.

Section Properties.

Variable rt : Runtime.

(** ** The field serializer *)

Lemma add_stdout_nil s : add_stdout s [] = s.
Proof. destruct s. unfold add_stdout. simpl. by rewrite app_nil_r. Qed.

Lemma add_stdout_app s l1 l2 :
  add_stdout (add_stdout s l1) l2 = add_stdout s (l1 ++ l2).
Proof. unfold add_stdout. simpl. by rewrite app_assoc. Qed.

Lemma switch_reads_no_state field s :
  fieldValueToString_switch rt field s = (switch_result rt field, s).
Proof.
  unfold switch_result, fieldValueToString_switch.
  destruct (Type_ field); try reflexivity.
  - destruct (Interface field); reflexivity.
  - destruct (Interface field) as [| | | | |t|d]; try reflexivity.
    destruct d as [ty [[str|v]|] e]; reflexivity.
  - destruct (Interface field) as [| | | | |t|d]; try reflexivity.
    destruct d as [ty st [[str|v]|]]; reflexivity.
Qed.

Lemma fieldValueToString_run c field s :
  fieldValueToString rt c field s
  = (Ok (rendered rt field), add_stdout s (recovered_lines rt field)).
Proof.
  unfold fieldValueToString, defer_recover, rendered, recovered_lines.
  rewrite switch_reads_no_state.
  destruct (switch_result rt field); simpl.
  - by rewrite add_stdout_nil.
  - reflexivity.
Qed.

Ltac render :=
  rewrite fieldValueToString_run;
  unfold rendered, recovered_lines, switch_result; simpl;
  by rewrite add_stdout_nil.

(** C2. [fieldValueToString] returns a string for every field of every
    kind and on every state, never a panic: the caller receives the text
    of the [switch] when it completes and the empty string when it panics,
    as it does for a payload that is not what the kind announces (a nil or
    foreign value behind [StringerType] or [ErrorType], a [String] method
    that panics, a payload that is no [time.Time] behind [TimeFullType]).
    The heap and the downstream calls are untouched. *)
Theorem fieldValueToString_total (c : Core) (field : Field) (s : State) :
  ∃ (str : string) (s' : State),
    fieldValueToString rt c field s = (Ok str, s') ∧
    str = match (fieldValueToString_switch rt field s).1 with
          | Ok t => t
          | Panic _ => ""
          end ∧
    heap s' = heap s ∧ sink s' = sink s ∧
    (fieldValueToString rt c (zap_Stringer (Key field) nil_iface) s).1 = Ok "" ∧
    (fieldValueToString rt c (zap_NamedError (Key field) nil_iface) s).1 = Ok "" ∧
    (fieldValueToString rt c
       (zap_Stringer (Key field)
          (val_dyn (mkDyn "T" (Some (Panics (PanicValue "boom"))) None))) s).1
      = Ok "" ∧
    (fieldValueToString rt c
       (zap_NamedError (Key field) (val_dyn (mkDyn "T" (Some (Returns "x")) None)))
       s).1 = Ok "" ∧
    (fieldValueToString rt c
       (mkField (Key field) TimeFullType 0 "" (ptr_Context None)) s).1 = Ok "".
Proof.
  exists (rendered rt field), (add_stdout s (recovered_lines rt field)).
  split; [apply fieldValueToString_run|].
  split; [by rewrite switch_reads_no_state|].
  repeat split.
Qed.

(** C6. A boolean field renders as "1" for true and "0" for false; a
    duration field renders as the decimal text of its nanoseconds divided
    by 1000000 with Go's truncating division, so 1500000 ns renders as
    "1". *)
Theorem fieldValueToString_bool_duration (c : Core) (key : string) (s : State) :
  fieldValueToString rt c (zap_Bool key true) s = (Ok "1", s) ∧
  fieldValueToString rt c (zap_Bool key false) s = (Ok "0", s) ∧
  (∀ (ns : Z) (str : string) (x : iface),
     fieldValueToString rt c (mkField key DurationType ns str x) s
     = (Ok (FormatInt (ns ÷ 1000000)), s)) ∧
  fieldValueToString rt c (zap_Duration key 1500000) s = (Ok "1", s) ∧
  fieldValueToString rt c (zap_Duration key 1999999) s = (Ok "1", s) ∧
  fieldValueToString rt c (zap_Duration key 999999) s = (Ok "0", s) ∧
  fieldValueToString rt c (zap_Duration key (-1500000)) s = (Ok "-1", s).
Proof. repeat split; intros; render. Qed.

(** The unsigned kinds render the signed reading of [Integer]; it is the
    carried value as long as that value fits 63 bits. *)
Lemma int64_small (v : Z) : 0 ≤ v < 2 ^ 63 → int64 v = v.
Proof.
  intros Hv. unfold int64.
  rewrite Z.mod_small; lia.
Qed.

Lemma FormatInt_nonneg (v : Z) : 0 ≤ v → FormatInt v = FormatUint v.
Proof.
  intros Hv. unfold FormatInt, FormatUint.
  destruct v as [|p|p]; try reflexivity. lia.
Qed.

Lemma unsigned_below_2_63 (c : Core) (key : string) (v : Z) (s : State) :
  0 ≤ v < 2 ^ 63 →
  fieldValueToString rt c (zap_Uint64 key v) s = (Ok (FormatUint v), s) ∧
  fieldValueToString rt c (zap_Uint32 key v) s = (Ok (FormatUint v), s) ∧
  fieldValueToString rt c (zap_Uint16 key v) s = (Ok (FormatUint v), s) ∧
  fieldValueToString rt c (zap_Uint8 key v) s = (Ok (FormatUint v), s) ∧
  fieldValueToString rt c (zap_Uintptr key v) s = (Ok (FormatUint v), s).
Proof.
  intros Hv.
  repeat split; rewrite fieldValueToString_run;
    unfold rendered, recovered_lines, switch_result; cbn [fst];
    unfold fieldValueToString_switch; cbn -[int64 FormatInt FormatUint];
    rewrite add_stdout_nil, int64_small by done;
    rewrite FormatInt_nonneg by lia; reflexivity.
Qed.

(** C4 (the code departs from the stated property). The field built for
    the uint64 value 2^64 - 1 carries [Integer = -1];
    [fieldValueToString] formats the signed reading and returns "-1",
    where the decimal text of the carried unsigned value is
    "18446744073709551615". The same happens at the least value above the
    signed range, 2^63, and for a uintptr. *)
Theorem uint64_above_int64_max_renders_signed (c : Core) (s : State) :
  fieldValueToString rt c (zap_Uint64 "n" 18446744073709551615) s = (Ok "-1", s) ∧
  FormatUint (uint64 (Integer (zap_Uint64 "n" 18446744073709551615)))
    = "18446744073709551615" ∧
  fieldValueToString rt c (zap_Uint64 "n" 9223372036854775808) s
    = (Ok "-9223372036854775808", s) ∧
  fieldValueToString rt c (zap_Uintptr "n" 18446744073709551615) s = (Ok "-1", s).
Proof. repeat split; try render. Qed.

(** ** The message builder *)

Lemma string_app_assoc (a b c : string) : (a +:+ b) +:+ c = a +:+ (b +:+ c).
Proof.
  induction a as [|x a IH]; [reflexivity|].
  change (String x ((a +:+ b) +:+ c) = String x (a +:+ (b +:+ c))).
  by f_equal.
Qed.

Lemma string_app_nil_r (a : string) : a +:+ "" = a.
Proof.
  induction a as [|x a IH]; [reflexivity|].
  change (String x (a +:+ "") = String x a). by f_equal.
Qed.

Lemma appendFields_loop_run c fields builder s :
  appendFields_loop rt c fields builder s
  = (Ok (builder +:+ inline_all rt (filter (λ f, Key f ≠ "context") fields)),
     add_stdout s
       (concat (map (recovered_lines rt)
                  (filter (λ f, Key f ≠ "context") fields)))).
Proof.
  revert builder s. induction fields as [|f rest IH]; intros builder s.
  - simpl. by rewrite string_app_nil_r, add_stdout_nil.
  - simpl. destruct (decide (Key f = "context")) as [Hk|Hk].
    + rewrite filter_cons_False by (intros Hn; by apply Hn). apply IH.
    + rewrite filter_cons_True by done.
      unfold mbind, M_bind. rewrite fieldValueToString_run, IH.
      cbn [concat map inline_all foldr]. rewrite add_stdout_app.
      unfold inline, inline_all, Sprintf_v.
      by rewrite !string_app_assoc.
Qed.

(** ** Allocation and the clone *)

Lemma fresh_heap (h : gmap loc obj) : h !! fresh (dom h) = None.
Proof. apply not_elem_of_dom, is_fresh. Qed.

Lemma grows_refl s : grows s s.
Proof. by repeat split. Qed.

Lemma grows_trans s1 s2 s3 : grows s1 s2 → grows s2 s3 → grows s1 s3.
Proof.
  intros (Hh & Ho & Hk) (Hh' & Ho' & Hk'). repeat split.
  - by transitivity (heap s2).
  - congruence.
  - congruence.
Qed.

Lemma grows_None s s' l : grows s s' → heap s' !! l = None → heap s !! l = None.
Proof.
  intros (Hh & _) Hl. destruct (heap s !! l) as [o|] eqn:E; [|done].
  eapply lookup_weaken in E; [|exact Hh]. congruence.
Qed.

Lemma alloc_spec o s :
  ∃ l, alloc o s = (Ok l, set_heap s (<[l := o]> (heap s))) ∧ heap s !! l = None.
Proof. eexists. split; [reflexivity | apply fresh_heap]. Qed.

Lemma alloc_grows o s l s' : alloc o s = (Ok l, s') → grows s s'.
Proof.
  destruct (alloc_spec o s) as (l0 & Hrun & Hfresh). rewrite Hrun.
  intros [= <- <-]. repeat split. simpl. by apply insert_subseteq.
Qed.

Lemma HTTPRequest_Clone_grows p s r s' :
  HTTPRequest_Clone p s = (r, s') → grows s s'.
Proof.
  destruct p as [l|]; simpl.
  - unfold mbind, M_bind, load_HTTPRequest.
    destruct (heap s !! l) as [[| | |]|]; try (intros [= <- <-]; apply grows_refl).
    destruct (alloc_spec (OHTTPRequest r0) s) as (l' & Hrun & Hfresh).
    rewrite Hrun. intros [= <- <-]. repeat split. simpl. by apply insert_subseteq.
  - intros [= <- <-]. apply grows_refl.
Qed.

Lemma ReportLocation_Clone_grows p s r s' :
  ReportLocation_Clone p s = (r, s') → grows s s'.
Proof.
  destruct p as [l|]; simpl.
  - unfold mbind, M_bind, load_ReportLocation.
    destruct (heap s !! l) as [[| | |]|]; try (intros [= <- <-]; apply grows_refl).
    destruct (alloc_spec (OReportLocation r0) s) as (l' & Hrun & Hfresh).
    rewrite Hrun. intros [= <- <-]. repeat split. simpl. by apply insert_subseteq.
  - intros [= <- <-]. apply grows_refl.
Qed.

(** The clone leaves every struct of the heap as it is; the context it
    returns is at an address that held nothing before. *)
Lemma cloneCtx_spec c s r s' :
  cloneCtx c s = (r, s') →
  grows s s' ∧
  ∀ l, r = Ok l → heap s !! l = None ∧ ∃ c0, heap s' !! l = Some (OContext c0).
Proof.
  unfold cloneCtx. destruct (ctx c) as [l0|].
  - unfold Context_Clone, mbind, M_bind, load_Context.
    destruct (heap s !! l0) as [[c0| | |]|];
      try (intros [= <- <-]; split; [apply grows_refl | discriminate]).
    destruct (HTTPRequest_Clone (ctx_HTTPRequest c0) s) as [[req|v] s1] eqn:E1;
      pose proof (HTTPRequest_Clone_grows _ _ _ _ E1) as G1;
      [|intros [= <- <-]; split; [done | discriminate]].
    destruct (ReportLocation_Clone (ctx_ReportLocation c0) s1) as [[rl|v] s2] eqn:E2;
      pose proof (ReportLocation_Clone_grows _ _ _ _ E2) as G2;
      [|intros [= <- <-]; split; [by eapply grows_trans | discriminate]].
    destruct (alloc_spec (OContext (mkContext (User c0) req rl)) s2)
      as (l' & Hrun & Hfresh).
    rewrite Hrun. intros [= <- <-].
    assert (grows s s2) as G by (by eapply grows_trans).
    split.
    + eapply grows_trans; [exact G|]. by eapply alloc_grows.
    + intros l [= <-]. split; [by eapply grows_None|].
      eexists. simpl. apply lookup_insert_eq.
  - destruct (alloc_spec (OContext (mkContext "" None None)) s)
      as (l' & Hrun & Hfresh).
    rewrite Hrun. intros [= <- <-]. split.
    + by eapply alloc_grows.
    + intros l [= <-]. split; [done|]. eexists. simpl. apply lookup_insert_eq.
Qed.

(** What is seen of a node's context depends on the structs present when
    it is looked at: a heap that grows keeps it. *)
Lemma observe_mono (h h' : gmap loc obj) (m : Core) (v : ContextView) :
  h ⊆ h' → observe h m = Some v → observe h' m = Some v.
Proof.
  intros Hsub. unfold observe, view_HTTPRequest, view_ReportLocation.
  destruct (ctx m) as [l|]; [|done].
  destruct (h !! l) as [[cx| | |]|] eqn:Hl; try done.
  rewrite (lookup_weaken _ _ _ _ Hl Hsub).
  destruct (ctx_HTTPRequest cx) as [p|], (ctx_ReportLocation cx) as [q|].
  - destruct (h !! p) as [[|r| |]|] eqn:Hp; try done.
    destruct (h !! q) as [[| |r'|]|] eqn:Hq; try done.
    by rewrite (lookup_weaken _ _ _ _ Hp Hsub), (lookup_weaken _ _ _ _ Hq Hsub).
  - destruct (h !! p) as [[|r| |]|] eqn:Hp; try done.
    by rewrite (lookup_weaken _ _ _ _ Hp Hsub).
  - destruct (h !! q) as [[| |r'|]|] eqn:Hq; try done.
    by rewrite (lookup_weaken _ _ _ _ Hq Hsub).
  - done.
Qed.

(** The clone of a node whose context pointers hold structs of their
    types returns. *)
Lemma cloneCtx_valid c s v :
  observe (heap s) c = Some v → ∃ l s', cloneCtx c s = (Ok l, s').
Proof.
  unfold observe, cloneCtx. destruct (ctx c) as [l0|].
  - destruct (heap s !! l0) as [[cx| | |]|] eqn:Hl0; try done.
    destruct (view_HTTPRequest (heap s) (ctx_HTTPRequest cx)) as [req|] eqn:Hreq;
      [|done].
    destruct (view_ReportLocation (heap s) (ctx_ReportLocation cx)) as [rl|] eqn:Hrl;
      [|done].
    intros _. unfold Context_Clone, mbind, M_bind, load_Context. rewrite Hl0.
    destruct (HTTPRequest_Clone (ctx_HTTPRequest cx) s) as [[p|v1] s1] eqn:E1.
    + pose proof (HTTPRequest_Clone_grows _ _ _ _ E1) as (Hsub & _).
      destruct (ReportLocation_Clone (ctx_ReportLocation cx) s1) as [[q|v2] s2] eqn:E2.
      * by eauto.
      * exfalso. revert E2. unfold ReportLocation_Clone, view_ReportLocation in *.
        destruct (ctx_ReportLocation cx) as [lq|]; [|done].
        unfold mbind, M_bind, load_ReportLocation.
        destruct (heap s !! lq) as [[| |r|]|] eqn:Hq; try done.
        by rewrite (lookup_weaken _ _ _ _ Hq Hsub).
    + exfalso. revert E1. unfold HTTPRequest_Clone, view_HTTPRequest in *.
      destruct (ctx_HTTPRequest cx) as [lp|]; [|done].
      unfold mbind, M_bind, load_HTTPRequest.
      by destruct (heap s !! lp) as [[|r| |]|].
  - intros _. by eauto.
Qed.

(** ** The loop of [extractCtx] *)

Lemma set_heap_id s l o : heap s !! l = Some o → set_heap s (<[l := o]> (heap s)) = s.
Proof. intros H. destruct s. unfold set_heap. simpl in *. by rewrite insert_id. Qed.

Lemma set_heap_twice s l o o' :
  set_heap (set_heap s (<[l := o]> (heap s)))
    (<[l := o']> (heap (set_heap s (<[l := o]> (heap s)))))
  = set_heap s (<[l := o']> (heap s)).
Proof. unfold set_heap. simpl. by rewrite insert_insert_eq. Qed.

Lemma writes_only_refl l s : writes_only l s s.
Proof. by repeat split. Qed.

Lemma writes_only_trans l s1 s2 s3 :
  writes_only l s1 s2 → writes_only l s2 s3 → writes_only l s1 s3.
Proof.
  intros (Hh & Ho & Hk) (Hh' & Ho' & Hk'). repeat split; [|congruence..].
  intros l' Hne. rewrite Hh', Hh; done.
Qed.

Lemma writes_only_store l s o : writes_only l s (set_heap s (<[l := o]> (heap s))).
Proof. repeat split. intros l' Hne. simpl. by rewrite lookup_insert_ne. Qed.

Lemma reserved_keys_spec (k : string) :
  k ∈ reserved_keys ↔
  k = logKeyContextHTTPRequest ∨ k = logKeyContextUser
  ∨ k = logKeyContextReportLocation.
Proof. unfold reserved_keys. rewrite !elem_of_cons, elem_of_nil. tauto. Qed.

(** A field whose key is not reserved goes to the output; the context
    and the rest of the state are not touched. *)
Lemma extractCtx_case_ordinary l f output s :
  Key f ∉ reserved_keys → extractCtx_case l f output s = (Ok (output ++ [f]), s).
Proof.
  rewrite reserved_keys_spec. intros Hk. unfold extractCtx_case.
  repeat case_decide; try reflexivity; exfalso; apply Hk; auto.
Qed.

Lemma write_slot_ordinary cx f : Key f ∉ reserved_keys → write_slot cx f = cx.
Proof.
  rewrite reserved_keys_spec. intros Hk. unfold write_slot.
  repeat case_decide; try reflexivity; exfalso; apply Hk; auto.
Qed.

(** A reserved field with a payload of the asserted shape is written to
    its slot and leaves the output as it is. *)
Lemma extractCtx_case_reserved l f output s cx :
  heap s !! l = Some (OContext cx) → Key f ∈ reserved_keys → payload_ok f = true →
  extractCtx_case l f output s
  = (Ok output, set_heap s (<[l := OContext (write_slot cx f)]> (heap s))).
Proof.
  intros Hl Hk Hp. unfold extractCtx_case, write_slot, payload_ok in *.
  unfold mbind, M_bind, load_Context.
  destruct (decide (Key f = logKeyContextHTTPRequest)).
  { destruct (Interface f); try discriminate. simpl. by rewrite Hl. }
  destruct (decide (Key f = logKeyContextReportLocation)).
  { destruct (Interface f); try discriminate. simpl. by rewrite Hl. }
  destruct (decide (Key f = logKeyContextUser)).
  { by rewrite Hl. }
  apply reserved_keys_spec in Hk. destruct Hk as [?|[?|?]]; done.
Qed.

Lemma extractCtx_case_frame l f output s r s' :
  extractCtx_case l f output s = (r, s') → writes_only l s s'.
Proof.
  unfold extractCtx_case, mbind, M_bind, load_Context.
  repeat case_decide.
  - destruct (Interface f); simpl; try (intros [= <- <-]; apply writes_only_refl).
    destruct (heap s !! l) as [[| | |]|]; intros [= <- <-];
      first [apply writes_only_refl | apply writes_only_store].
  - destruct (Interface f); simpl; try (intros [= <- <-]; apply writes_only_refl).
    destruct (heap s !! l) as [[| | |]|]; intros [= <- <-];
      first [apply writes_only_refl | apply writes_only_store].
  - destruct (heap s !! l) as [[| | |]|]; intros [= <- <-];
      first [apply writes_only_refl | apply writes_only_store].
  - intros [= <- <-]. apply writes_only_refl.
Qed.

Lemma extractCtx_loop_frame l fields output s r s' :
  extractCtx_loop l fields output s = (r, s') → writes_only l s s'.
Proof.
  revert output s. induction fields as [|f rest IH]; intros output s; simpl.
  - intros [= <- <-]. apply writes_only_refl.
  - unfold mbind, M_bind.
    destruct (extractCtx_case l f output s) as [[out1|v] s1] eqn:E1;
      apply extractCtx_case_frame in E1.
    + intros E2. apply IH in E2. by eapply writes_only_trans.
    + by intros [= <- <-].
Qed.

Lemma extractCtx_loop_ok l fields output s cx :
  heap s !! l = Some (OContext cx) → payloads_ok fields = true →
  extractCtx_loop l fields output s
  = (Ok (output ++ ordinary fields),
     set_heap s (<[l := OContext (write_slots cx fields)]> (heap s))).
Proof.
  revert output s cx. induction fields as [|f rest IH]; intros output s cx Hl Hp.
  - simpl. unfold ordinary. rewrite filter_nil, app_nil_r.
    by rewrite set_heap_id.
  - simpl in Hp. apply andb_prop in Hp as [Hf Hrest].
    cbn [extractCtx_loop]. unfold mbind, M_bind, ordinary, write_slots.
    destruct (decide (Key f ∈ reserved_keys)) as [Hk|Hk].
    + rewrite (extractCtx_case_reserved _ _ _ _ cx) by done.
      rewrite (IH _ _ (write_slot cx f)); [|by simpl; rewrite lookup_insert_eq|done].
      rewrite set_heap_twice, filter_cons_False by (intros Hn; by apply Hn).
      reflexivity.
    + rewrite extractCtx_case_ordinary by done.
      rewrite (IH _ _ cx) by done.
      rewrite filter_cons_True by done. cbn [fold_left].
      rewrite write_slot_ordinary by done.
      by rewrite <- app_assoc.
Qed.

(** The loop panics only on a reserved field whose payload has another
    shape than its [case] asserts. *)
Lemma extractCtx_loop_panic l fields output s cx v s' :
  heap s !! l = Some (OContext cx) →
  extractCtx_loop l fields output s = (Panic v, s') → payloads_ok fields = false.
Proof.
  intros Hl Hrun. destruct (payloads_ok fields) eqn:Hp; [|done].
  rewrite (extractCtx_loop_ok _ _ _ _ cx) in Hrun by done. discriminate.
Qed.

(** ** Last write wins *)

Ltac distinct_keys :=
  unfold logKeyContextHTTPRequest, logKeyContextUser,
    logKeyContextReportLocation, logKeyServiceContext in *;
  congruence.

Lemma write_slots_snoc cx fields f :
  write_slots cx (fields ++ [f]) = write_slot (write_slots cx fields) f.
Proof. unfold write_slots. by rewrite fold_left_app. Qed.

Lemma last_keyed_snoc k fields f :
  last_keyed k (fields ++ [f])
  = if decide (Key f = k) then Some f else last_keyed k fields.
Proof.
  unfold last_keyed. rewrite filter_app, last_app.
  destruct (decide (Key f = k)) as [Hk|Hk].
  - by rewrite filter_cons_True.
  - by rewrite filter_cons_False.
Qed.

Lemma write_slots_User cx fields :
  User (write_slots cx fields)
  = match last_keyed logKeyContextUser fields with
    | Some f => String_ f
    | None => User cx
    end.
Proof.
  induction fields as [|f fields IH] using rev_ind; [reflexivity|].
  rewrite write_slots_snoc, last_keyed_snoc. unfold write_slot.
  repeat case_decide; simpl; try done; distinct_keys.
Qed.

Lemma write_slots_HTTPRequest cx fields :
  ctx_HTTPRequest (write_slots cx fields)
  = match last_keyed logKeyContextHTTPRequest fields with
    | Some f => pointer_of (Interface f)
    | None => ctx_HTTPRequest cx
    end.
Proof.
  induction fields as [|f fields IH] using rev_ind; [reflexivity|].
  rewrite write_slots_snoc, last_keyed_snoc. unfold write_slot.
  repeat case_decide; simpl; try done; distinct_keys.
Qed.

Lemma write_slots_ReportLocation cx fields :
  ctx_ReportLocation (write_slots cx fields)
  = match last_keyed logKeyContextReportLocation fields with
    | Some f => pointer_of (Interface f)
    | None => ctx_ReportLocation cx
    end.
Proof.
  induction fields as [|f fields IH] using rev_ind; [reflexivity|].
  rewrite write_slots_snoc, last_keyed_snoc. unfold write_slot.
  repeat case_decide; simpl; try done; distinct_keys.
Qed.

(** ** The partition *)

Lemma extractCtx_run c fields s l0 s1 :
  cloneCtx c s = (Ok l0, s1) →
  extractCtx c fields s
  = match extractCtx_loop l0 fields [] s1 with
    | (Ok out, s2) => (Ok (out, l0), s2)
    | (Panic v, s2) => (Panic v, s2)
    end.
Proof. intros H. unfold extractCtx, mbind, M_bind. rewrite H. reflexivity. Qed.

(** C1 (amended). On every field list whose [context.httpRequest] fields
    carry a request pointer and whose [context.reportLocation] fields carry
    a location pointer, and for every base context, [extractCtx] returns:
    the output is the input without the fields of the three reserved keys,
    the others unchanged and in their order; the context returned is the
    clone of the base context, where each slot holds the payload of the
    last field of its key (the [String] of a [context.user] field, the
    pointer of the two others) and the clone's value when no field has the
    key. Nothing else of the state changes. *)
Theorem extractCtx_partition (c : Core) (fields : list Field) (s s1 : State)
    (l0 : loc) (c0 : Context) :
  cloneCtx c s = (Ok l0, s1) →
  heap s1 !! l0 = Some (OContext c0) →
  payloads_ok fields = true →
  ∃ cm : Context,
    extractCtx c fields s
    = (Ok (filter (λ f, Key f ∉ reserved_keys) fields, l0),
       set_heap s1 (<[l0 := OContext cm]> (heap s1))) ∧
    User cm = match last_keyed logKeyContextUser fields with
              | Some f => String_ f
              | None => User c0
              end ∧
    ctx_HTTPRequest cm = match last_keyed logKeyContextHTTPRequest fields with
                         | Some f => pointer_of (Interface f)
                         | None => ctx_HTTPRequest c0
                         end ∧
    ctx_ReportLocation cm = match last_keyed logKeyContextReportLocation fields with
                            | Some f => pointer_of (Interface f)
                            | None => ctx_ReportLocation c0
                            end.
Proof.
  intros Hclone Hl0 Hp. exists (write_slots c0 fields).
  rewrite (extractCtx_run _ _ _ _ _ Hclone).
  rewrite (extractCtx_loop_ok _ _ _ _ c0) by done.
  split; [reflexivity|].
  by rewrite write_slots_User, write_slots_HTTPRequest, write_slots_ReportLocation.
Qed.

(** The partition allocates and writes its own clone only. *)
Lemma extractCtx_grows c fields s r s' :
  extractCtx c fields s = (r, s') →
  grows s s' ∧ ∀ out l, r = Ok (out, l) → heap s !! l = None.
Proof.
  unfold extractCtx, mbind, M_bind.
  destruct (cloneCtx c s) as [[l0|v] s1] eqn:Hclone;
    apply cloneCtx_spec in Hclone as [G Hfresh];
    [|intros [= <- <-]; split; [done | discriminate]].
  destruct (Hfresh l0 eq_refl) as [Hnone _].
  destruct (extractCtx_loop l0 fields [] s1) as [[out|v] s2] eqn:Hloop;
    apply extractCtx_loop_frame in Hloop as (Hh & Ho & Hk);
    destruct G as (Gh & Go & Gk);
    intros [= <- <-].
  all: split; [|intros ? ? [= ]; by subst].
  all: repeat split; [|congruence..].
  all: apply map_subseteq_spec; intros i x Hi;
    rewrite Hh by (intros ->; congruence);
    by eapply lookup_weaken.
Qed.

Lemma extractCtx_panic c fields s v s' :
  extractCtx c fields s = (Panic v, s') →
  payloads_ok fields = false ∨ ∃ s1, cloneCtx c s = (Panic v, s1).
Proof.
  unfold extractCtx, mbind, M_bind.
  destruct (cloneCtx c s) as [[l0|v0] s1] eqn:Hclone.
  - apply cloneCtx_spec in Hclone as [_ Hfresh].
    destruct (Hfresh l0 eq_refl) as [_ [c0 Hc0]].
    destruct (extractCtx_loop l0 fields [] s1) as [[out|v1] s2] eqn:Hloop;
      [discriminate|].
    intros _. left. by eapply extractCtx_loop_panic.
  - intros [= <- <-]. right. by exists s1.
Qed.

(** A run on a list with a payload of a foreign shape does not return. *)
Lemma extractCtx_loop_foreign l fields output s cx :
  heap s !! l = Some (OContext cx) → payloads_ok fields = false →
  ∃ v s', extractCtx_loop l fields output s = (Panic v, s').
Proof.
  revert output s cx.
  induction fields as [|f rest IH]; intros output s cx Hl Hp; [done|].
  simpl in Hp. cbn [extractCtx_loop]. unfold mbind, M_bind.
  destruct (payload_ok f) eqn:Hf.
  - destruct (decide (Key f ∈ reserved_keys)) as [Hk|Hk].
    + rewrite (extractCtx_case_reserved _ _ _ _ cx) by done.
      eapply IH; [|done]. simpl. apply lookup_insert_eq.
    + rewrite extractCtx_case_ordinary by done. by eapply IH.
  - unfold extractCtx_case, payload_ok in *.
    repeat case_decide; try discriminate;
      destruct (Interface f); try discriminate; by eauto.
Qed.

(** What a returning partition did. *)
Lemma extractCtx_ok_inv c fields s out l s' :
  extractCtx c fields s = (Ok (out, l), s') →
  ∃ s1 c0,
    cloneCtx c s = (Ok l, s1) ∧ grows s s1 ∧ heap s !! l = None ∧
    heap s1 !! l = Some (OContext c0) ∧ payloads_ok fields = true ∧
    out = ordinary fields ∧
    s' = set_heap s1 (<[l := OContext (write_slots c0 fields)]> (heap s1)).
Proof.
  unfold extractCtx, mbind, M_bind.
  destruct (cloneCtx c s) as [[l0|v0] s1] eqn:Hclone; [|discriminate].
  pose proof Hclone as Hspec. apply cloneCtx_spec in Hspec as [G Hfresh].
  destruct (Hfresh l0 eq_refl) as [Hnone [c0 Hc0]].
  destruct (payloads_ok fields) eqn:Hp.
  - rewrite (extractCtx_loop_ok _ _ _ _ c0) by done. intros [= <- <- <-].
    by exists s1, c0.
  - destruct (extractCtx_loop_foreign l0 fields [] s1 c0 Hc0 Hp) as (v & s2 & ->).
    discriminate.
Qed.

Lemma extractCtx_output c fields s out l s' :
  extractCtx c fields s = (Ok (out, l), s') → out = ordinary fields.
Proof.
  intros H. by apply extractCtx_ok_inv in H as (? & ? & _ & _ & _ & _ & _ & ? & _).
Qed.

(** ** The report-location capturer *)

Lemma getReportLocationFromEntry_nil c entry s :
  SetReportLocation c = false ∨ Defined (Caller entry) = false →
  getReportLocationFromEntry rt c entry s = (Ok None, s).
Proof.
  unfold getReportLocationFromEntry.
  intros [-> | ->]; [reflexivity|]. by destruct (SetReportLocation c).
Qed.

(** The location that an enabled capture builds for an entry. *)
Lemma Write_fields_capture c entry fields s :
  SetReportLocation c = true → Defined (Caller entry) = true →
  Write_fields rt c entry fields s
  = (Ok (fields ++ [LogReportLocation (Some (fresh (dom (heap s))))]),
     set_heap s
       (<[fresh (dom (heap s)) :=
            OReportLocation
              (mkReportLocation (File (Caller entry)) (Line (Caller entry))
                 (default "" (FuncForPC_Name rt (PC (Caller entry)))))]>
          (heap s))).
Proof.
  intros Hflag Hdef.
  unfold Write_fields, getReportLocationFromEntry, mbind, M_bind.
  rewrite Hflag, Hdef. simpl.
  destruct (FuncForPC_Name rt (PC (Caller entry))) as [name|]; simpl.
  - unfold set_heap. simpl. by rewrite insert_insert_eq.
  - reflexivity.
Qed.

Lemma Write_fields_grows c entry fields s r s' :
  Write_fields rt c entry fields s = (r, s') → grows s s'.
Proof.
  destruct (SetReportLocation c) eqn:Hflag;
    [destruct (Defined (Caller entry)) eqn:Hdef|].
  - rewrite Write_fields_capture by done. intros [= <- <-].
    repeat split. simpl. apply insert_subseteq, fresh_heap.
  - unfold Write_fields, mbind, M_bind.
    rewrite getReportLocationFromEntry_nil by auto.
    intros [= <- <-]. apply grows_refl.
  - unfold Write_fields, mbind, M_bind.
    rewrite getReportLocationFromEntry_nil by auto.
    intros [= <- <-]. apply grows_refl.
Qed.

(** The first statements of [Write] never panic; they leave the caller's
    list as it is or append one report-location field to it. *)
Lemma Write_fields_ok c entry fields s :
  ∃ fields1 s1,
    Write_fields rt c entry fields s = (Ok fields1, s1) ∧ grows s s1 ∧
    (fields1 = fields ∨ ∃ l, fields1 = fields ++ [LogReportLocation (Some l)]).
Proof.
  destruct (SetReportLocation c) eqn:Hflag;
    [destruct (Defined (Caller entry)) eqn:Hdef|].
  - eexists _, _. split; [by apply Write_fields_capture|]. split; [|by eauto].
    repeat split. simpl. apply insert_subseteq, fresh_heap.
  - exists fields, s. split; [|split; [apply grows_refl | by left]].
    unfold Write_fields, mbind, M_bind.
    rewrite getReportLocationFromEntry_nil by auto. reflexivity.
  - exists fields, s. split; [|split; [apply grows_refl | by left]].
    unfold Write_fields, mbind, M_bind.
    rewrite getReportLocationFromEntry_nil by auto. reflexivity.
Qed.

Lemma payloads_ok_injected fields l :
  payloads_ok (fields ++ [LogReportLocation (Some l)]) = payloads_ok fields.
Proof.
  unfold payloads_ok. rewrite forallb_app. simpl.
  replace (payload_ok (LogReportLocation (Some l))) with true
    by (unfold payload_ok; simpl; repeat case_decide; done).
  by rewrite !andb_true_r.
Qed.

(** ** The write operation *)

(** [Write] after its first statements: the forwarded entry and fields
    when the partition returns, its panic otherwise. *)
Lemma Write_run c entry fields s fields1 s1 :
  Write_fields rt c entry fields s = (Ok fields1, s1) →
  Write rt c entry fields s
  = match extractCtx c fields1 s1 with
    | (Ok (out, lctx), s2) =>
        let fs := out ++ [zap_Object "context" (ptr_Context (Some lctx))] in
        let e := set_Message entry
                   (Message entry +:+
                    inline_all rt (filter (λ f, Key f ≠ "context") out)) in
        (Ok (write_error (downstream c) e fs),
         {| heap := heap s2;
            stdout := stdout s2 ++
              concat (map (recovered_lines rt)
                        (filter (λ f, Key f ≠ "context") out));
            sink := sink s2 ++ [(downstream c, e, fs)] |})
    | (Panic v, s2) => (Panic v, s2)
    end.
Proof.
  intros H. unfold Write, mbind, M_bind. rewrite H.
  destruct (extractCtx c fields1 s1) as [[[out lctx]|v] s2]; [|reflexivity].
  unfold appendFields. rewrite appendFields_loop_run.
  rewrite filter_app, (filter_cons_False _ (zap_Object _ _))
    by (intros Hn; by apply Hn).
  rewrite filter_nil, app_nil_r. reflexivity.
Qed.

(** C3 (amended). When the partition of a write returns the ordinary
    fields [out], the message forwarded downstream is the entry's message
    followed, in field order, by " key=value" for each field of [out]
    whose key is not "context", the value being the text
    [fieldValueToString] returns for it; an ordinary field with the key
    "context" is skipped. The fields forwarded are [out] followed by the
    context field. *)
Theorem Write_appends_inline_fields (c : Core) (entry : Entry)
    (fields fields1 out : list Field) (s s1 s2 : State) (lctx : loc) :
  Write_fields rt c entry fields s = (Ok fields1, s1) →
  extractCtx c fields1 s1 = (Ok (out, lctx), s2) →
  ∃ (err : option string) (s' : State),
    Write rt c entry fields s = (Ok err, s') ∧
    sink s' = sink s ++
      [(downstream c,
        set_Message entry
          (Message entry +:+ inline_all rt (filter (λ f, Key f ≠ "context") out)),
        out ++ [zap_Object "context" (ptr_Context (Some lctx))])] ∧
    ∀ (str : string) (fs : list Field) (st : State),
      (appendFields rt c str fs st).1
      = Ok (str +:+ inline_all rt (filter (λ f, Key f ≠ "context") fs)).
Proof.
  intros Hfields Hpart.
  rewrite (Write_run _ _ _ _ _ _ Hfields), Hpart.
  apply Write_fields_grows in Hfields as (_ & _ & Hk1).
  apply extractCtx_grows in Hpart as [(_ & _ & Hk2) _].
  eexists _, _. split; [reflexivity|]. split.
  - simpl. by rewrite Hk2, Hk1.
  - intros str fs st. unfold appendFields. by rewrite appendFields_loop_run.
Qed.

(** C8. When the flag [SetReportLocation] is false, whatever the caller
    metadata of the entry, and when the flag is true and the caller is not
    defined, the capturer returns nil without touching the state, the
    field list that [Write] partitions is the caller's list as it came,
    and [Write] forwards the partition of that list. *)
Theorem Write_injects_nothing_when_disabled (c : Core) (entry : Entry)
    (fields : list Field) (s : State) :
  SetReportLocation c = false ∨ Defined (Caller entry) = false →
  getReportLocationFromEntry rt c entry s = (Ok None, s) ∧
  Write_fields rt c entry fields s = (Ok fields, s) ∧
  match extractCtx c fields s with
  | (Ok (out, lctx), s2) =>
      out = filter (λ f, Key f ∉ reserved_keys) fields ∧
      ∃ (err : option string) (e : Entry) (s' : State),
        Write rt c entry fields s = (Ok err, s') ∧
        sink s' = sink s ++
          [(downstream c, e, out ++ [zap_Object "context" (ptr_Context (Some lctx))])] ∧
        heap s' = heap s2
  | (Panic v, s2) => Write rt c entry fields s = (Panic v, s2)
  end.
Proof.
  intros Hoff.
  assert (Write_fields rt c entry fields s = (Ok fields, s)) as Hfields.
  { unfold Write_fields, mbind, M_bind.
    by rewrite getReportLocationFromEntry_nil. }
  split; [by apply getReportLocationFromEntry_nil|]. split; [done|].
  rewrite (Write_run _ _ _ _ _ _ Hfields).
  destruct (extractCtx c fields s) as [[[out lctx]|v] s2] eqn:Hpart; [|reflexivity].
  split; [by eapply extractCtx_output|].
  apply extractCtx_grows in Hpart as [(_ & _ & Hk2) _].
  eexists _, _, _. split; [reflexivity|]. simpl. by rewrite Hk2.
Qed.

(** C9. With the flag set and the caller of the entry defined, whatever
    the caller's fields and the base context of the node: when [Write]
    forwards, the context object it forwards holds in its reportLocation
    slot the address of the location captured for this entry (file and
    line of the caller, function name when the runtime resolves it), an
    address that held nothing before the call; a [context.reportLocation]
    field of the caller and the location of the base context are
    overwritten. [Write] fails to forward only when a reserved field of
    the caller has a payload of a foreign shape (or the node's context
    pointers hold no structs, which Go excludes). *)
Theorem Write_captured_location_wins (c : Core) (entry : Entry)
    (fields : list Field) (s : State) :
  SetReportLocation c = true →
  Defined (Caller entry) = true →
  match Write rt c entry fields s with
  | (Ok err, s') =>
      heap s !! fresh (dom (heap s)) = None ∧
      heap s' !! fresh (dom (heap s))
      = Some (OReportLocation
                (mkReportLocation (File (Caller entry)) (Line (Caller entry))
                   (default "" (FuncForPC_Name rt (PC (Caller entry)))))) ∧
      ∃ (e : Entry) (out : list Field) (lctx : loc) (cm : Context),
        sink s' = sink s ++
          [(downstream c, e,
            out ++ [zap_Object "context" (ptr_Context (Some lctx))])] ∧
        heap s' !! lctx = Some (OContext cm) ∧
        ctx_ReportLocation cm = Some (fresh (dom (heap s)))
  | (Panic v, _) => payloads_ok fields = false ∨ observe (heap s) c = None
  end.
Proof.
  intros Hflag Hdef.
  pose proof (Write_fields_capture c entry fields s Hflag Hdef) as Hfields.
  set (l := fresh (dom (heap s))) in *.
  set (captured := mkReportLocation _ _ _) in *.
  set (s1 := set_heap s _) in *.
  rewrite (Write_run _ _ _ _ _ _ Hfields).
  destruct (extractCtx c (fields ++ [LogReportLocation (Some l)]) s1)
    as [[[out lctx]|v] s2] eqn:Hpart.
  - apply extractCtx_ok_inv in Hpart
      as (s1' & c0 & Hclone & (Gh & Go & Gk) & Hnone & Hc0 & Hp & -> & ->).
    assert (heap s1 !! l = Some (OReportLocation captured)) as Hl
      by (subst s1; simpl; apply lookup_insert_eq).
    assert (l ≠ lctx) as Hne by (intros ->; congruence).
    split; [apply fresh_heap|]. split.
    + simpl. rewrite lookup_insert_ne by done. by eapply lookup_weaken.
    + eexists _, _, lctx, _. split; [|split].
      * simpl. rewrite Gk. reflexivity.
      * simpl. apply lookup_insert_eq.
      * rewrite write_slots_snoc. unfold write_slot.
        repeat case_decide; simpl in *; try done; distinct_keys.
  - apply extractCtx_panic in Hpart as [Hp|[s2' Hclone]].
    + left. by rewrite payloads_ok_injected in Hp.
    + right. destruct (observe (heap s) c) as [view|] eqn:Hobs; [|done].
      exfalso. eapply (observe_mono _ (heap s1)) in Hobs;
        [|subst s1; simpl; apply insert_subseteq, fresh_heap].
      apply cloneCtx_valid in Hobs as (l' & s' & Hok). congruence.
Qed.




(** ** Isolation of the contexts *)

Lemma With_run c fields s :
  With c fields s
  = match extractCtx c fields s with
    | (Ok (out, l), s') =>
        (Ok {| downstream := zapCore_With (downstream c) out;
               SetReportLocation := SetReportLocation c;
               ctx := Some l |}, s')
    | (Panic v, s') => (Panic v, s')
    end.
Proof.
  unfold With, mbind, M_bind.
  by destruct (extractCtx c fields s) as [[[out l]|v] s'].
Qed.

Lemma With_heap c fields s : heap s ⊆ heap (With c fields s).2.
Proof.
  rewrite With_run.
  destruct (extractCtx c fields s) as [[[out l]|v] s'] eqn:Hpart;
    by apply extractCtx_grows in Hpart as [(Hh & _) _].
Qed.

Lemma Write_heap c entry fields s : heap s ⊆ heap (Write rt c entry fields s).2.
Proof.
  destruct (Write_fields_ok c entry fields s)
    as (fields1 & s1 & Hfields & (Hh1 & _) & _).
  rewrite (Write_run _ _ _ _ _ _ Hfields).
  destruct (extractCtx c fields1 s1) as [[[out l]|v] s2] eqn:Hpart;
    apply extractCtx_grows in Hpart as [(Hh2 & _) _];
    simpl; by transitivity (heap s1).
Qed.

(** C5. [With] and [Write] leave the heap they start from as it is: what
    is seen of the context of any node [m] that exists before the call
    (the receiver, a node derived from it earlier, any other) is the same
    after the call, whether it returns or panics. The child that [With]
    returns has its context at an address that held nothing before, so
    that a later assignment to the slots of the child's context, the only
    mutation of a context that the package performs, does not show through
    any of these nodes. *)
Theorem With_leaves_contexts_unchanged (n : Core) (fields : list Field)
    (s : State) (m : Core) (v : ContextView) :
  observe (heap s) m = Some v →
  heap s ⊆ heap (With n fields s).2 ∧
  observe (heap (With n fields s).2) m = Some v ∧
  (∀ entry : Entry, observe (heap (Write rt n entry fields s).2) m = Some v) ∧
  ∀ child : Core, (With n fields s).1 = Ok child →
    ∃ l : loc, ctx child = Some l ∧ heap s !! l = None ∧
      ∀ cx : Context,
        observe (<[l := OContext cx]> (heap (With n fields s).2)) m = Some v.
Proof.
  intros Hv. pose proof (With_heap n fields s) as Hsub.
  split; [done|]. split; [by eapply observe_mono|]. split.
  { intros entry. eapply observe_mono; [apply Write_heap | done]. }
  intros child Hchild. rewrite With_run in Hchild, Hsub |- *.
  destruct (extractCtx n fields s) as [[[out l]|v0] s'] eqn:Hpart; [|done].
  simpl in Hchild. injection Hchild as <-.
  apply extractCtx_grows in Hpart as [_ Hfresh].
  specialize (Hfresh out l eq_refl).
  exists l. split; [done|]. split; [done|].
  intros cx. eapply observe_mono; [|exact Hv].
  by apply insert_subseteq_r.
Qed.

(** * Further properties of the code *)

(** ** The severity table outside its keys *)

Lemma logLevelSeverity_dom :
  dom logLevelSeverity =
    list_to_set [DebugLevel; InfoLevel; WarnLevel; ErrorLevel; DPanicLevel;
                 PanicLevel; FatalLevel].
Proof. reflexivity. Qed.

Lemma logLevelSeverity_keys (lv : Level) :
  lv ∈ dom logLevelSeverity ↔
  lv = -1 ∨ lv = 0 ∨ lv = 1 ∨ lv = 2 ∨ lv = 3 ∨ lv = 4 ∨ lv = 5.
Proof.
  rewrite logLevelSeverity_dom, elem_of_list_to_set, !elem_of_cons, elem_of_nil.
  unfold DebugLevel, InfoLevel, WarnLevel, ErrorLevel, DPanicLevel, PanicLevel,
    FatalLevel.
  tauto.
Qed.

(** X1. A level that is not one of the seven of the table (below debug or
    above fatal) has no entry: indexing the map gives Go's zero value and
    [EncodeLevel] appends the empty string, not a token. *)
Theorem EncodeLevel_unmapped (lv : Level) (enc : PrimitiveArrayEncoder) :
  lv < DebugLevel ∨ FatalLevel < lv →
  logLevelSeverity !! lv = None ∧ EncodeLevel lv enc = enc ++ [""].
Proof.
  intros Hout.
  assert (logLevelSeverity !! lv = None) as Hnone.
  { apply not_elem_of_dom. rewrite logLevelSeverity_keys.
    unfold DebugLevel, FatalLevel in Hout. lia. }
  split; [done|]. unfold EncodeLevel, AppendString, map_index. by rewrite Hnone.
Qed.

(** X2. The table is injective and its tokens are not empty: two levels
    with the same token are the same level, so the token appended by
    [EncodeLevel] identifies the level, and it is never confused with the
    empty string of an unmapped level. *)
Theorem logLevelSeverity_injective (a b : Level) (tok : string) :
  logLevelSeverity !! a = Some tok →
  logLevelSeverity !! b = Some tok →
  a = b ∧ tok ≠ "".
Proof.
  intros Ha Hb.
  assert (a ∈ dom logLevelSeverity) as Ka by (apply elem_of_dom; eauto).
  assert (b ∈ dom logLevelSeverity) as Kb by (apply elem_of_dom; eauto).
  apply logLevelSeverity_keys in Ka, Kb.
  destruct Ka as [->|[->|[->|[->|[->|[->| ->]]]]]];
    vm_compute in Ha; injection Ha as <-;
    (split; [|discriminate]);
    destruct Kb as [->|[->|[->|[->|[->|[->| ->]]]]]];
    vm_compute in Hb; first [reflexivity | discriminate Hb].
Qed.

(** ** More on the field serializer *)

(** X3. For a field of any kind other than [TimeFullType], [StringerType]
    and [ErrorType], the three kinds whose case asserts the payload,
    [fieldValueToString] has no effect at all: it returns the text of
    the [switch] and leaves the state, standard output included, as it
    was. *)
Theorem fieldValueToString_no_effect (c : Core) (field : Field) (s : State) :
  Type_ field ≠ TimeFullType →
  Type_ field ≠ StringerType →
  Type_ field ≠ ErrorType →
  ∃ str : string,
    fieldValueToString rt c field s = (Ok str, s) ∧
    fieldValueToString_switch rt field s = (Ok str, s).
Proof.
  intros Ht Hs He. rewrite fieldValueToString_run, switch_reads_no_state.
  unfold rendered, recovered_lines, switch_result, fieldValueToString_switch.
  destruct (Type_ field); try done; simpl; rewrite add_stdout_nil; eauto.
Qed.

(** X4. Behind [StringerType] and [ErrorType], a payload that has the
    method is rendered by calling it: the text the method returns is the
    result and nothing is printed; when the method panics the result is
    empty and exactly one line, with the recovered value, goes to standard
    output. A [time.Time] behind [StringerType] renders as the text of the
    instant. *)
Theorem fieldValueToString_calls_method (c : Core) (key ty : string)
    (m : call) (other : option call) (t : Time) (s : State) :
  fieldValueToString rt c (zap_Stringer key (val_dyn (mkDyn ty (Some m) other))) s
  = match m with
    | Returns text => (Ok text, s)
    | Panics v =>
        (Ok "", add_stdout s ["Recovered fieldValueToString: " +:+ panic_text v])
    end ∧
  fieldValueToString rt c (zap_NamedError key (val_dyn (mkDyn ty other (Some m)))) s
  = match m with
    | Returns text => (Ok text, s)
    | Panics v =>
        (Ok "", add_stdout s ["Recovered fieldValueToString: " +:+ panic_text v])
    end ∧
  fieldValueToString rt c (zap_Stringer key (val_Time t)) s
  = (Ok (Time_String rt t), s).
Proof.
  repeat split; rewrite fieldValueToString_run;
    unfold rendered, recovered_lines, switch_result; simpl;
    try destruct m; simpl; by rewrite ?add_stdout_nil.
Qed.

Lemma int64_high (v : Z) : 2 ^ 63 ≤ v < 2 ^ 64 → int64 v = v - 2 ^ 64.
Proof.
  intros Hv. unfold int64.
  replace (v + 2 ^ 63) with ((v - 2 ^ 63) + 1 * 2 ^ 64) by lia.
  rewrite Z.mod_add by lia. rewrite Z.mod_small; lia.
Qed.

(** X5. The text of a uint64 field is the decimal of the signed reading
    of its 64 bits: the value itself, written as [strconv.FormatUint]
    would, when it is below 2^63, and the negative number [v - 2^64] from
    2^63 on. *)
Theorem uint64_renders_signed_reading (c : Core) (key : string) (v : Z)
    (s : State) :
  0 ≤ v < 2 ^ 64 →
  fieldValueToString rt c (zap_Uint64 key v) s
  = (Ok (if decide (v < 2 ^ 63) then FormatUint v else FormatInt (v - 2 ^ 64)), s).
Proof.
  intros Hv. rewrite fieldValueToString_run.
  unfold rendered, recovered_lines, switch_result; cbn [fst].
  unfold fieldValueToString_switch; cbn -[int64 FormatInt FormatUint Z.pow].
  rewrite add_stdout_nil.
  destruct (decide (v < 2 ^ 63)) as [Hlt|Hge].
  - rewrite int64_small by lia. by rewrite FormatInt_nonneg by lia.
  - by rewrite int64_high by lia.
Qed.

(** ** More on the message builder *)

Lemma inline_all_app (fs1 fs2 : list Field) :
  inline_all rt (fs1 ++ fs2) = inline_all rt fs1 +:+ inline_all rt fs2.
Proof.
  unfold inline_all. induction fs1 as [|f fs1 IH]; [reflexivity|].
  cbn [foldr app]. by rewrite IH, string_app_assoc.
Qed.

(** X6. [appendFields] never panics and never loses the text it is given:
    its result is that text followed by a suffix (empty for an empty
    field list); it touches neither the heap nor the downstream calls. *)
Theorem appendFields_keeps_prefix (c : Core) (str : string)
    (fields : list Field) (s : State) :
  ∃ (suffix : string) (s' : State),
    appendFields rt c str fields s = (Ok (str +:+ suffix), s') ∧
    heap s' = heap s ∧ sink s' = sink s ∧
    appendFields rt c str [] s = (Ok str, s).
Proof.
  unfold appendFields. rewrite !appendFields_loop_run.
  eexists _, _. split; [reflexivity|]. split; [done|]. split; [done|].
  rewrite filter_nil. simpl. by rewrite string_app_nil_r, add_stdout_nil.
Qed.

(** X7. Building a message from two field lists in a row is building it
    from their concatenation: the text and the lines printed are the
    same. *)
Theorem appendFields_app (c : Core) (str : string) (fs1 fs2 : list Field)
    (s : State) :
  appendFields rt c str (fs1 ++ fs2) s
  = (appendFields rt c str fs1 ≫= λ text, appendFields rt c text fs2) s.
Proof.
  unfold appendFields, mbind, M_bind. rewrite !appendFields_loop_run.
  rewrite filter_app, inline_all_app, map_app, concat_app.
  by rewrite add_stdout_app, string_app_assoc.
Qed.

(** ** More on the partition *)

Lemma cloneCtx_root c s :
  ctx c = None →
  cloneCtx c s
  = (Ok (fresh (dom (heap s))),
     set_heap s (<[fresh (dom (heap s)) := OContext empty_Context]> (heap s))).
Proof. intros Hc. unfold cloneCtx. by rewrite Hc. Qed.

Lemma extractCtx_root_run c fields s :
  ctx c = None → payloads_ok fields = true →
  extractCtx c fields s
  = (Ok (ordinary fields, fresh (dom (heap s))),
     set_heap s
       (<[fresh (dom (heap s)) := OContext (write_slots empty_Context fields)]>
          (heap s))).
Proof.
  intros Hc Hp. rewrite (extractCtx_run _ _ _ _ _ (cloneCtx_root c s Hc)).
  rewrite (extractCtx_loop_ok _ fields _ _ empty_Context), set_heap_twice;
    [reflexivity | simpl; apply lookup_insert_eq | done].
Qed.

(** X8. On a root node (nil context) the partition starts from an empty
    context at a fresh address. For a field list whose reserved fields
    have payloads of the asserted shape it returns the ordinary fields
    and that context with the slots written in order; nothing else of the
    state changes, and an empty field list gives the empty context. *)
Theorem extractCtx_root (c : Core) (fields : list Field) (s : State) :
  ctx c = None →
  payloads_ok fields = true →
  heap s !! fresh (dom (heap s)) = None ∧
  extractCtx c fields s
  = (Ok (ordinary fields, fresh (dom (heap s))),
     set_heap s
       (<[fresh (dom (heap s)) := OContext (write_slots empty_Context fields)]>
          (heap s))) ∧
  extractCtx c [] s
  = (Ok ([], fresh (dom (heap s))),
     set_heap s (<[fresh (dom (heap s)) := OContext empty_Context]> (heap s))).
Proof.
  intros Hc Hp. split; [apply fresh_heap|].
  split; by apply extractCtx_root_run.
Qed.

(** X9. On a root node the partition panics exactly when some
    [context.httpRequest] or [context.reportLocation] field carries a
    payload that is not a pointer of the asserted type; fields of any
    other key, [context.user] included, never make it panic. *)
Theorem extractCtx_root_panics_iff (c : Core) (fields : list Field) (s : State) :
  ctx c = None →
  (∃ v, (extractCtx c fields s).1 = Panic v) ↔ payloads_ok fields = false.
Proof.
  intros Hc. rewrite (extractCtx_run _ _ _ _ _ (cloneCtx_root c s Hc)).
  set (l := fresh (dom (heap s))). set (s1 := set_heap s _).
  assert (heap s1 !! l = Some (OContext empty_Context)) as Hl
    by (subst s1; simpl; apply lookup_insert_eq).
  split.
  - intros [v Hv]. destruct (payloads_ok fields) eqn:Hp; [|done].
    rewrite (extractCtx_loop_ok _ _ _ _ empty_Context) in Hv by done.
    discriminate.
  - intros Hp.
    destruct (extractCtx_loop_foreign l fields [] s1 _ Hl Hp) as (v & s2 & ->).
    by exists v.
Qed.

(** A reserved field leaves the output as it found it, and what it does
    to the state does not depend on the output. *)
Lemma extractCtx_case_reserved_output l f output output' s :
  Key f ∈ reserved_keys →
  extractCtx_case l f output s
  = match extractCtx_case l f output' s with
    | (Ok _, s') => (Ok output, s')
    | (Panic v, s') => (Panic v, s')
    end.
Proof.
  rewrite reserved_keys_spec. intros Hk.
  unfold extractCtx_case, mbind, M_bind, load_Context.
  repeat case_decide.
  - destruct (Interface f); simpl; try reflexivity;
      by destruct (heap s !! l) as [[| | |]|].
  - destruct (Interface f); simpl; try reflexivity;
      by destruct (heap s !! l) as [[| | |]|].
  - by destruct (heap s !! l) as [[| | |]|].
  - exfalso. destruct Hk as [?|[?|?]]; done.
Qed.

Lemma extractCtx_loop_reserved l fields output output' s :
  extractCtx_loop l (reserved fields) output s
  = match extractCtx_loop l fields output' s with
    | (Ok _, s') => (Ok output, s')
    | (Panic v, s') => (Panic v, s')
    end.
Proof.
  revert output output' s. unfold reserved.
  induction fields as [|f rest IH]; intros output output' s; [reflexivity|].
  destruct (decide (Key f ∈ reserved_keys)) as [Hk|Hk].
  - rewrite filter_cons_True by done. cbn [extractCtx_loop].
    unfold mbind, M_bind.
    rewrite (extractCtx_case_reserved_output l f output output' s Hk).
    destruct (extractCtx_case l f output' s) as [[out1|v] s1]; [|reflexivity].
    apply IH.
  - rewrite filter_cons_False by done. cbn [extractCtx_loop].
    unfold mbind, M_bind. rewrite (extractCtx_case_ordinary l f output') by done.
    apply IH.
Qed.

(** X10. The context that the partition builds does not depend on the
    ordinary fields: run on the reserved fields alone, from the same
    state, [extractCtx] ends in the same state with the same context
    pointer, or in the same panic, and its output is empty. *)
Theorem extractCtx_ignores_ordinary (c : Core) (fields : list Field) (s : State) :
  extractCtx c (reserved fields) s
  = match extractCtx c fields s with
    | (Ok (_, lctx), s') => (Ok ([], lctx), s')
    | (Panic v, s') => (Panic v, s')
    end.
Proof.
  unfold extractCtx, mbind, M_bind.
  destruct (cloneCtx c s) as [[l0|v] s1]; [|reflexivity].
  rewrite (extractCtx_loop_reserved l0 fields [] [] s1).
  by destruct (extractCtx_loop l0 fields [] s1) as [[out|v] s2].
Qed.

Lemma ordinary_app fs1 fs2 : ordinary (fs1 ++ fs2) = ordinary fs1 ++ ordinary fs2.
Proof. unfold ordinary. apply filter_app. Qed.

Lemma write_slots_app cx fs1 fs2 :
  write_slots cx (fs1 ++ fs2) = write_slots (write_slots cx fs1) fs2.
Proof. unfold write_slots. apply fold_left_app. Qed.

(** X11. The loop of the partition distributes over concatenation:
    processing [fs1 ++ fs2] is processing [fs1] and then [fs2] on the
    output and the context that [fs1] left, panics included. *)
Theorem extractCtx_loop_app (l : loc) (fs1 fs2 output : list Field) (s : State) :
  extractCtx_loop l (fs1 ++ fs2) output s
  = (extractCtx_loop l fs1 output ≫= extractCtx_loop l fs2) s.
Proof.
  revert output s. induction fs1 as [|f fs1 IH]; intros output s; [reflexivity|].
  cbn [app extractCtx_loop]. unfold mbind, M_bind in *.
  destruct (extractCtx_case l f output s) as [[out1|v] s1]; [|reflexivity].
  apply IH.
Qed.

Lemma payloads_ok_ordinary fields :
  Forall (λ f, Key f ∉ reserved_keys) fields → payloads_ok fields = true.
Proof.
  induction 1 as [|f rest Hf _ IH]; [reflexivity|].
  simpl. rewrite IH, andb_true_r. unfold payload_ok.
  rewrite reserved_keys_spec in Hf.
  repeat case_decide; try reflexivity; exfalso; apply Hf; auto.
Qed.

Lemma ordinary_id fields :
  Forall (λ f, Key f ∉ reserved_keys) fields → ordinary fields = fields.
Proof.
  unfold ordinary. induction 1 as [|f rest Hf _ IH]; [reflexivity|].
  by rewrite filter_cons_True, IH.
Qed.

Lemma write_slots_ordinary cx fields :
  Forall (λ f, Key f ∉ reserved_keys) fields → write_slots cx fields = cx.
Proof.
  unfold write_slots. induction 1 as [|f rest Hf _ IH]; [reflexivity|].
  cbn [fold_left]. by rewrite write_slot_ordinary.
Qed.

(** X12. A field list without reserved keys passes through whole: when
    the clone of the node's context returns, [extractCtx] returns the
    list as it came, never panics whatever the kinds and payloads of the
    fields, and leaves the clone as it is. *)
Theorem extractCtx_passes_unreserved (c : Core) (fields : list Field)
    (s s1 : State) (l0 : loc) :
  Forall (λ f, Key f ∉ reserved_keys) fields →
  cloneCtx c s = (Ok l0, s1) →
  extractCtx c fields s = (Ok (fields, l0), s1).
Proof.
  intros Hord Hclone.
  pose proof Hclone as [_ Hfresh]%cloneCtx_spec.
  destruct (Hfresh l0 eq_refl) as [_ [c0 Hc0]].
  rewrite (extractCtx_run _ _ _ _ _ Hclone).
  rewrite (extractCtx_loop_ok _ _ _ _ c0) by (done || by apply payloads_ok_ordinary).
  rewrite ordinary_id, write_slots_ordinary by done.
  by rewrite set_heap_id.
Qed.

(** X13. A typed nil pointer is a payload of the asserted shape: a
    [context.httpRequest] or [context.reportLocation] field built from a
    nil pointer does not panic and, placed last, resets its slot to nil,
    whatever the base context and the fields before it held there; the
    other slots and the output are those of the fields before it. *)
Theorem extractCtx_nil_pointer_resets (c : Core) (fields : list Field)
    (s s1 : State) (l0 : loc) (c0 : Context) :
  cloneCtx c s = (Ok l0, s1) →
  heap s1 !! l0 = Some (OContext c0) →
  payloads_ok fields = true →
  extractCtx c (fields ++ [LogHTTPRequest None]) s
  = (Ok (ordinary fields, l0),
     set_heap s1
       (<[l0 := OContext (mkContext (User (write_slots c0 fields)) None
                            (ctx_ReportLocation (write_slots c0 fields)))]>
          (heap s1))) ∧
  extractCtx c (fields ++ [LogReportLocation None]) s
  = (Ok (ordinary fields, l0),
     set_heap s1
       (<[l0 := OContext (mkContext (User (write_slots c0 fields))
                            (ctx_HTTPRequest (write_slots c0 fields)) None)]>
          (heap s1))).
Proof.
  intros Hclone Hc0 Hp.
  rewrite !(extractCtx_run _ _ _ _ _ Hclone).
  rewrite !(extractCtx_loop_ok _ _ _ _ c0);
    try done;
    try (unfold payloads_ok in *; rewrite forallb_app, Hp; reflexivity).
  rewrite !ordinary_app, !write_slots_app.
  split; simpl; by rewrite app_nil_r.
Qed.

(** ** More on the capturer *)

(** X14. [getReportLocationFromEntry] never panics. It answers nil and
    leaves the state alone unless the flag is set and the caller is
    defined; then it answers the fresh address of one new struct that
    holds the caller's file and line and the function name the runtime
    resolves for the program counter, the empty name when it resolves
    none. *)
Theorem getReportLocationFromEntry_exact (c : Core) (entry : Entry) (s : State) :
  heap s !! fresh (dom (heap s)) = None ∧
  getReportLocationFromEntry rt c entry s
  = if SetReportLocation c && Defined (Caller entry)
    then (Ok (Some (fresh (dom (heap s)))),
          set_heap s
            (<[fresh (dom (heap s)) :=
                 OReportLocation
                   (mkReportLocation (File (Caller entry)) (Line (Caller entry))
                      (default "" (FuncForPC_Name rt (PC (Caller entry)))))]>
               (heap s)))
    else (Ok None, s).
Proof.
  split; [apply fresh_heap|].
  unfold getReportLocationFromEntry, mbind, M_bind.
  destruct (SetReportLocation c); [|reflexivity].
  destruct (Defined (Caller entry)); [|reflexivity]. simpl.
  destruct (FuncForPC_Name rt (PC (Caller entry))) as [name|]; simpl.
  - unfold set_heap. simpl. by rewrite insert_insert_eq.
  - reflexivity.
Qed.

(** ** More on the write operation *)

Lemma ordinary_injected fields l :
  ordinary (fields ++ [LogReportLocation (Some l)]) = ordinary fields.
Proof.
  rewrite ordinary_app. unfold ordinary at 2.
  rewrite filter_cons_False, filter_nil, app_nil_r; [done|].
  intros Hn. apply Hn. apply reserved_keys_spec. auto.
Qed.

(** What a returning [Write] did. *)
Lemma Write_ok_inv c entry fields s err s' :
  Write rt c entry fields s = (Ok err, s') →
  ∃ fields1 s1 lctx s2,
    Write_fields rt c entry fields s = (Ok fields1, s1) ∧ grows s s1 ∧
    extractCtx c fields1 s1 = (Ok (ordinary fields, lctx), s2) ∧
    let fs := ordinary fields ++ [context_field lctx] in
    let e := set_Message entry
               (Message entry +:+
                inline_all rt (filter (λ f, Key f ≠ "context") (ordinary fields))) in
    err = write_error (downstream c) e fs ∧
    s' = {| heap := heap s2;
            stdout := stdout s2 ++
              concat (map (recovered_lines rt)
                        (filter (λ f, Key f ≠ "context") (ordinary fields)));
            sink := sink s2 ++ [(downstream c, e, fs)] |}.
Proof.
  destruct (Write_fields_ok c entry fields s)
    as (fields1 & s1 & Hfields & G1 & Hshape).
  rewrite (Write_run _ _ _ _ _ _ Hfields).
  destruct (extractCtx c fields1 s1) as [[[out lctx]|v] s2] eqn:Hpart; [|done].
  pose proof (extractCtx_output _ _ _ _ _ _ Hpart) as ->.
  assert (ordinary fields1 = ordinary fields) as Hord
    by (destruct Hshape as [->|[l ->]]; [done | apply ordinary_injected]).
  rewrite Hord in *. intros [= <- <-].
  by exists fields1, s1, lctx, s2.
Qed.

Lemma Forall_ordinary fields : Forall (λ f, Key f ∉ reserved_keys) (ordinary fields).
Proof. unfold ordinary. apply Forall_forall. by intros f [? _]%list_elem_of_filter. Qed.

(** X15. When [Write] returns, the downstream core received exactly one
    more call, and the answer of [Write] is the answer of that core for
    the entry and fields it received. The entry forwarded is the caller's
    entry with the same level, logger name, caller and stack; its message
    is the caller's message followed by a suffix. *)
Theorem Write_forwards_once (c : Core) (entry : Entry) (fields : list Field)
    (s s' : State) (err : option string) :
  Write rt c entry fields s = (Ok err, s') →
  ∃ (e : Entry) (fs : list Field),
    sink s' = sink s ++ [(downstream c, e, fs)] ∧
    err = write_error (downstream c) e fs ∧
    Level_ e = Level_ entry ∧ LoggerName e = LoggerName entry ∧
    Caller e = Caller entry ∧ Stack e = Stack entry ∧
    ∃ suffix : string, Message e = Message entry +:+ suffix.
Proof.
  intros (fields1 & s1 & lctx & s2 & _ & (_ & _ & Hk1) & Hpart & Herr & ->)%Write_ok_inv.
  apply extractCtx_grows in Hpart as [(_ & _ & Hk2) _].
  eexists _, _. split; [simpl; by rewrite Hk2, Hk1|].
  split; [exact Herr|]. simpl. repeat split. by eexists.
Qed.

(** X16. When [Write] panics, nothing was forwarded and nothing was
    printed: the downstream calls and the standard output are those of
    the start, and the structs of the heap are still there. *)
Theorem Write_panic_forwards_nothing (c : Core) (entry : Entry)
    (fields : list Field) (s s' : State) (v : panic_value) :
  Write rt c entry fields s = (Panic v, s') →
  sink s' = sink s ∧ stdout s' = stdout s ∧ heap s ⊆ heap s'.
Proof.
  destruct (Write_fields_ok c entry fields s)
    as (fields1 & s1 & Hfields & (Hh1 & Ho1 & Hk1) & _).
  rewrite (Write_run _ _ _ _ _ _ Hfields).
  destruct (extractCtx c fields1 s1) as [[[out lctx]|v0] s2] eqn:Hpart; [done|].
  apply extractCtx_grows in Hpart as [(Hh2 & Ho2 & Hk2) _].
  intros [= <- <-]. repeat split; [congruence.. |]. by transitivity (heap s1).
Qed.

(** X17. The field list that [Write] forwards holds no field with a
    reserved key: it is the ordinary fields of the caller's list, in
    their order, followed by one object field with the key "context"
    whose payload points to a context struct allocated by this call. *)
Theorem Write_forwards_no_reserved_key (c : Core) (entry : Entry)
    (fields : list Field) (s s' : State) (err : option string) :
  Write rt c entry fields s = (Ok err, s') →
  ∃ (e : Entry) (lctx : loc) (cm : Context),
    sink s' = sink s ++ [(downstream c, e, ordinary fields ++ [context_field lctx])] ∧
    Forall (λ f, Key f ∉ reserved_keys) (ordinary fields ++ [context_field lctx]) ∧
    heap s !! lctx = None ∧
    heap s' !! lctx = Some (OContext cm).
Proof.
  intros (fields1 & s1 & lctx & s2 & _ & G1 & Hpart & _ & ->)%Write_ok_inv.
  pose proof Hpart as [(_ & _ & Hk2) _]%extractCtx_grows.
  apply extractCtx_ok_inv in Hpart
    as (s1' & c0 & _ & _ & Hnone & _ & _ & _ & ->).
  destruct G1 as (Hh1 & Ho1 & Hk1).
  simpl in Hk2.
  eexists _, lctx, _. split; [simpl; by rewrite Hk2, Hk1|]. split; [|split].
  - apply Forall_app. split; [apply Forall_ordinary|].
    apply Forall_singleton. rewrite reserved_keys_spec. simpl.
    intros [?|[?|?]]; discriminate.
  - eapply grows_None; [|exact Hnone]. by repeat split.
  - simpl. apply lookup_insert_eq.
Qed.

(** ** More on derivation *)

(** X18. The child that [With] returns keeps the flag of its parent,
    wraps the downstream core bound to the ordinary fields only (the
    reserved fields never reach it), and holds a context allocated by
    this call; [With] prints nothing and forwards nothing. *)
Theorem With_child (c child : Core) (fields : list Field) (s s' : State) :
  With c fields s = (Ok child, s') →
  SetReportLocation child = SetReportLocation c ∧
  downstream child = zapCore_With (downstream c) (ordinary fields) ∧
  bound (downstream child) = bound (downstream c) ++ ordinary fields ∧
  (∃ (l : loc) (cm : Context),
     ctx child = Some l ∧ heap s !! l = None ∧ heap s' !! l = Some (OContext cm)) ∧
  stdout s' = stdout s ∧ sink s' = sink s.
Proof.
  rewrite With_run.
  destruct (extractCtx c fields s) as [[[out l]|v] s2] eqn:Hpart; [|done].
  intros [= <- <-].
  pose proof Hpart as [(_ & Ho & Hk) _]%extractCtx_grows.
  apply extractCtx_ok_inv in Hpart
    as (s1 & c0 & _ & _ & Hnone & _ & _ & -> & ->).
  repeat split; try done.
  eexists l, _. repeat split; [done|]. simpl. apply lookup_insert_eq.
Qed.

(** X19. Two children derived from the same root node, one after the
    other, hold two different context structs; after both derivations
    each context holds the slots written by its own fields only, so
    neither sibling sees the other's user, request or location. *)
Theorem With_siblings_of_root (c : Core) (fields1 fields2 : list Field)
    (s : State) :
  ctx c = None →
  payloads_ok fields1 = true →
  payloads_ok fields2 = true →
  ∃ (c1 c2 : Core) (s1 s2 : State) (l1 l2 : loc),
    With c fields1 s = (Ok c1, s1) ∧ With c fields2 s1 = (Ok c2, s2) ∧
    ctx c1 = Some l1 ∧ ctx c2 = Some l2 ∧ l1 ≠ l2 ∧
    heap s2 !! l1 = Some (OContext (write_slots empty_Context fields1)) ∧
    heap s2 !! l2 = Some (OContext (write_slots empty_Context fields2)).
Proof.
  intros Hc Hp1 Hp2.
  rewrite With_run, (extractCtx_root_run c fields1 s Hc Hp1).
  set (l1 := fresh (dom (heap s))). set (s1 := set_heap s _).
  eexists _, _, s1, _, l1, (fresh (dom (heap s1))).
  split; [reflexivity|].
  rewrite With_run, (extractCtx_root_run c fields2 s1 Hc Hp2).
  split; [reflexivity|]. split; [reflexivity|]. split; [reflexivity|].
  assert (heap s1 !! l1 = Some (OContext (write_slots empty_Context fields1)))
    as Hl1 by (subst s1; simpl; apply lookup_insert_eq).
  assert (l1 ≠ fresh (dom (heap s1))) as Hne.
  { intros Heq. pose proof (fresh_heap (heap s1)) as Hf.
    rewrite <- Heq in Hf. congruence. }
  split; [done|]. split.
  - simpl. rewrite lookup_insert_ne by done. exact Hl1.
  - simpl. apply lookup_insert_eq.
Qed.

(** X20. A write through a root node with fields of the asserted shapes
    never panics. It forwards the ordinary fields followed by the context
    field; the context struct holds the slots written by the fields of
    this call (and the captured location, when one is captured) over the
    empty context, so nothing of an earlier write shows in it; the
    message is the caller's message followed by the inline text of the
    ordinary fields whose key is not "context". *)
Theorem Write_root (c : Core) (entry : Entry) (fields : list Field) (s : State) :
  ctx c = None →
  payloads_ok fields = true →
  ∃ (fields1 : list Field) (s1 : State),
    Write_fields rt c entry fields s = (Ok fields1, s1) ∧
    let lctx := fresh (dom (heap s1)) in
    let fs := ordinary fields ++ [context_field lctx] in
    let e := set_Message entry
               (Message entry +:+
                inline_all rt (filter (λ f, Key f ≠ "context") (ordinary fields))) in
    Write rt c entry fields s
    = (Ok (write_error (downstream c) e fs),
       {| heap := <[lctx := OContext (write_slots empty_Context fields1)]> (heap s1);
          stdout := stdout s ++
            concat (map (recovered_lines rt)
                      (filter (λ f, Key f ≠ "context") (ordinary fields)));
          sink := sink s ++ [(downstream c, e, fs)] |}).
Proof.
  intros Hc Hp.
  destruct (Write_fields_ok c entry fields s)
    as (fields1 & s1 & Hfields & (_ & Ho1 & Hk1) & Hshape).
  exists fields1, s1. split; [done|].
  assert (payloads_ok fields1 = true) as Hp1
    by (destruct Hshape as [->|[l ->]]; [done | by rewrite payloads_ok_injected]).
  assert (ordinary fields1 = ordinary fields) as Hord
    by (destruct Hshape as [->|[l ->]]; [done | apply ordinary_injected]).
  rewrite (Write_run _ _ _ _ _ _ Hfields).
  rewrite (extractCtx_root_run c fields1 s1 Hc Hp1), Hord.
  simpl. by rewrite Ho1, Hk1.
Qed.

End Properties.

(** * The properties on sample runs *)

(** C1, as stated, fails: on a field list where a [context.httpRequest]
    field carries a string and no request pointer, the assertion of its
    [case] panics; [extractCtx] returns no output and no context. *)
Lemma extractCtx_foreign_payload_panics :
  (extractCtx (root_core false) sample_misused_fields initial_state).1
  = Panic (TypeAssertionError "*stackdriver.HTTPRequest") ∧
  ¬ ∃ (out : list Field) (lctx : loc) (s' : State),
      extractCtx (root_core false) sample_misused_fields initial_state
      = (Ok (out, lctx), s').
Proof.
  split; [vm_compute; reflexivity|].
  intros (out & lctx & s' & H).
  apply (f_equal fst) in H. vm_compute in H. discriminate H.
Qed.

(** C1 (amended) on a sample run: the node's context is cloned at address
    6, the two user fields and the location field are consumed, the last
    user wins. *)
Lemma extractCtx_partition_witness :
  ∃ cm : Context,
    extractCtx sample_node sample_fields sample_state
    = (Ok (filter (λ f, Key f ∉ reserved_keys) sample_fields, 6%positive),
       set_heap sample_cloned (<[6%positive := OContext cm]> (heap sample_cloned))) ∧
    User cm = match last_keyed logKeyContextUser sample_fields with
              | Some f => String_ f
              | None => User (mkContext "bob" (Some 4%positive) (Some 5%positive))
              end ∧
    ctx_HTTPRequest cm
    = match last_keyed logKeyContextHTTPRequest sample_fields with
      | Some f => pointer_of (Interface f)
      | None => ctx_HTTPRequest (mkContext "bob" (Some 4%positive) (Some 5%positive))
      end ∧
    ctx_ReportLocation cm
    = match last_keyed logKeyContextReportLocation sample_fields with
      | Some f => pointer_of (Interface f)
      | None => ctx_ReportLocation (mkContext "bob" (Some 4%positive) (Some 5%positive))
      end.
Proof.
  apply (extractCtx_partition sample_node sample_fields sample_state
           sample_cloned 6%positive
           (mkContext "bob" (Some 4%positive) (Some 5%positive)));
    vm_compute; reflexivity.
Defined.

(** C3, as stated, fails: a field with the key "context" is an ordinary
    field, the partition passes it on, and the message forwarded by
    [Write] has no " context=x" for it. *)
Lemma Write_skips_field_keyed_context :
  (extractCtx (root_core false) sample_context_keyed_fields initial_state).1
  = Ok (sample_context_keyed_fields, 1%positive) ∧
  map (λ call, Message call.1.2)
    (sink (Write sample_runtime (root_core false) sample_entry
             sample_context_keyed_fields initial_state).2)
  = ["request served retries=3"] ∧
  Message sample_entry +:+ inline_all sample_runtime sample_context_keyed_fields
  = "request served context=x retries=3" ∧
  "request served retries=3" ≠ "request served context=x retries=3".
Proof. repeat split; try (vm_compute; reflexivity). discriminate. Qed.

(** C3 (amended) on the same run. *)
Lemma Write_appends_inline_fields_witness :
  ∃ (err : option string) (s' : State),
    Write sample_runtime (root_core false) sample_entry
      sample_context_keyed_fields initial_state = (Ok err, s') ∧
    sink s' = sink initial_state ++
      [(downstream (root_core false),
        set_Message sample_entry
          (Message sample_entry +:+
           inline_all sample_runtime
             (filter (λ f, Key f ≠ "context") sample_context_keyed_fields)),
        sample_context_keyed_fields
          ++ [zap_Object "context" (ptr_Context (Some 1%positive))])] ∧
    ∀ (str : string) (fs : list Field) (st : State),
      (appendFields sample_runtime (root_core false) str fs st).1
      = Ok (str +:+ inline_all sample_runtime (filter (λ f, Key f ≠ "context") fs)).
Proof.
  apply (Write_appends_inline_fields sample_runtime (root_core false) sample_entry
           sample_context_keyed_fields sample_context_keyed_fields
           sample_context_keyed_fields initial_state initial_state
           (extractCtx (root_core false) sample_context_keyed_fields initial_state).2
           1%positive);
    vm_compute; reflexivity.
Defined.

(** C8 on a sample run: a root node with the flag off and an entry whose
    caller is defined. *)
Lemma Write_injects_nothing_when_disabled_witness :
  getReportLocationFromEntry sample_runtime (root_core false) sample_entry sample_state
  = (Ok None, sample_state) ∧
  Write_fields sample_runtime (root_core false) sample_entry sample_fields sample_state
  = (Ok sample_fields, sample_state) ∧
  match extractCtx (root_core false) sample_fields sample_state with
  | (Ok (out, lctx), s2) =>
      out = filter (λ f, Key f ∉ reserved_keys) sample_fields ∧
      ∃ (err : option string) (e : Entry) (s' : State),
        Write sample_runtime (root_core false) sample_entry sample_fields sample_state
        = (Ok err, s') ∧
        sink s' = sink sample_state ++
          [(downstream (root_core false), e,
            out ++ [zap_Object "context" (ptr_Context (Some lctx))])] ∧
        heap s' = heap s2
  | (Panic v, s2) =>
      Write sample_runtime (root_core false) sample_entry sample_fields sample_state
      = (Panic v, s2)
  end.
Proof.
  apply (Write_injects_nothing_when_disabled sample_runtime (root_core false)
           sample_entry sample_fields sample_state).
  left. reflexivity.
Defined.

(** C9 on a sample run: the base context of the node and a field of the
    caller both carry the old location at address 3; the forwarded
    context holds the location captured at the fresh address. *)
Lemma Write_captured_location_wins_witness :
  match Write sample_runtime sample_node sample_entry sample_fields sample_state with
  | (Ok err, s') =>
      heap sample_state !! fresh (dom (heap sample_state)) = None ∧
      heap s' !! fresh (dom (heap sample_state))
      = Some (OReportLocation
                (mkReportLocation (File (Caller sample_entry))
                   (Line (Caller sample_entry))
                   (default ""
                      (FuncForPC_Name sample_runtime (PC (Caller sample_entry)))))) ∧
      ∃ (e : Entry) (out : list Field) (lctx : loc) (cm : Context),
        sink s' = sink sample_state ++
          [(downstream sample_node, e,
            out ++ [zap_Object "context" (ptr_Context (Some lctx))])] ∧
        heap s' !! lctx = Some (OContext cm) ∧
        ctx_ReportLocation cm = Some (fresh (dom (heap sample_state)))
  | (Panic v, _) =>
      payloads_ok sample_fields = false ∨ observe (heap sample_state) sample_node = None
  end.
Proof.
  apply (Write_captured_location_wins sample_runtime sample_node sample_entry
           sample_fields sample_state); reflexivity.
Defined.

(** C5 on a sample run: the receiver's context shows the same user,
    request and location after [With] and after [Write]. *)
Lemma With_leaves_contexts_unchanged_witness :
  heap sample_state ⊆ heap (With sample_node sample_fields sample_state).2 ∧
  observe (heap (With sample_node sample_fields sample_state).2) sample_node
  = Some ("bob", Some (mkHTTPRequest "GET /"),
          Some (mkReportLocation "old.go" 7 "main.old")) ∧
  (∀ entry : Entry,
     observe (heap (Write sample_runtime sample_node entry sample_fields
                      sample_state).2) sample_node
     = Some ("bob", Some (mkHTTPRequest "GET /"),
             Some (mkReportLocation "old.go" 7 "main.old"))) ∧
  ∀ child : Core, (With sample_node sample_fields sample_state).1 = Ok child →
    ∃ l : loc, ctx child = Some l ∧ heap sample_state !! l = None ∧
      ∀ cx : Context,
        observe (<[l := OContext cx]>
                   (heap (With sample_node sample_fields sample_state).2))
          sample_node
        = Some ("bob", Some (mkHTTPRequest "GET /"),
                Some (mkReportLocation "old.go" 7 "main.old")).
Proof.
  apply (With_leaves_contexts_unchanged sample_runtime sample_node sample_fields
           sample_state sample_node
           ("bob", Some (mkHTTPRequest "GET /"),
            Some (mkReportLocation "old.go" 7 "main.old"))).
  vm_compute. reflexivity.
Defined.

(** * The further properties on sample runs *)

(** X1 at level 7, above fatal. *)
Lemma EncodeLevel_unmapped_witness :
  logLevelSeverity !! 7 = None ∧ EncodeLevel 7 ["x"] = ["x"] ++ [""].
Proof. apply (EncodeLevel_unmapped 7 ["x"]). right. reflexivity. Defined.

(** X2 at the debug level. *)
Lemma logLevelSeverity_injective_witness : -1 = DebugLevel ∧ "DEBUG" ≠ "".
Proof.
  apply (logLevelSeverity_injective (-1) DebugLevel "DEBUG");
    vm_compute; reflexivity.
Defined.

(** X3 on an int32 field. *)
Lemma fieldValueToString_no_effect_witness :
  ∃ str : string,
    fieldValueToString sample_runtime (root_core false) (zap_Int32 "retries" 3)
      sample_state = (Ok str, sample_state) ∧
    fieldValueToString_switch sample_runtime (zap_Int32 "retries" 3) sample_state
    = (Ok str, sample_state).
Proof.
  apply (fieldValueToString_no_effect sample_runtime (root_core false)
           (zap_Int32 "retries" 3) sample_state);
    simpl; discriminate.
Defined.

(** X5 at the largest uint64. *)
Lemma uint64_renders_signed_reading_witness :
  fieldValueToString sample_runtime (root_core false)
    (zap_Uint64 "n" 18446744073709551615) initial_state
  = (Ok (if decide (18446744073709551615 < 2 ^ 63)
         then FormatUint 18446744073709551615
         else FormatInt (18446744073709551615 - 2 ^ 64)), initial_state).
Proof.
  apply (uint64_renders_signed_reading sample_runtime (root_core false) "n"
           18446744073709551615 initial_state).
  lia.
Defined.

(** X8 on a root node. *)
Lemma extractCtx_root_witness :
  heap initial_state !! fresh (dom (heap initial_state)) = None ∧
  extractCtx (root_core false) sample_fields initial_state
  = (Ok (ordinary sample_fields, fresh (dom (heap initial_state))),
     set_heap initial_state
       (<[fresh (dom (heap initial_state)) :=
            OContext (write_slots empty_Context sample_fields)]>
          (heap initial_state))) ∧
  extractCtx (root_core false) [] initial_state
  = (Ok ([], fresh (dom (heap initial_state))),
     set_heap initial_state
       (<[fresh (dom (heap initial_state)) := OContext empty_Context]>
          (heap initial_state))).
Proof.
  apply (extractCtx_root (root_core false) sample_fields initial_state);
    reflexivity.
Defined.

(** X9 on a list with a string behind [context.httpRequest]. *)
Lemma extractCtx_root_panics_iff_witness :
  (∃ v, (extractCtx (root_core false) sample_misused_fields initial_state).1
        = Panic v)
  ↔ payloads_ok sample_misused_fields = false.
Proof.
  apply (extractCtx_root_panics_iff (root_core false) sample_misused_fields
           initial_state).
  reflexivity.
Defined.

(** X12 through the sample node. *)
Lemma extractCtx_passes_unreserved_witness :
  extractCtx sample_node sample_plain_fields sample_state
  = (Ok (sample_plain_fields, 6%positive), sample_cloned).
Proof.
  apply (extractCtx_passes_unreserved sample_node sample_plain_fields
           sample_state sample_cloned 6%positive).
  - refine (bool_decide_unpack _ _). vm_compute. exact I.
  - vm_compute. reflexivity.
Defined.

(** X13 through the sample node. *)
Lemma extractCtx_nil_pointer_resets_witness :
  extractCtx sample_node (sample_fields ++ [LogHTTPRequest None]) sample_state
  = (Ok (ordinary sample_fields, 6%positive),
     set_heap sample_cloned
       (<[6%positive :=
            OContext
              (mkContext
                 (User (write_slots
                          (mkContext "bob" (Some 4%positive) (Some 5%positive))
                          sample_fields))
                 None
                 (ctx_ReportLocation
                    (write_slots
                       (mkContext "bob" (Some 4%positive) (Some 5%positive))
                       sample_fields)))]>
          (heap sample_cloned))) ∧
  extractCtx sample_node (sample_fields ++ [LogReportLocation None]) sample_state
  = (Ok (ordinary sample_fields, 6%positive),
     set_heap sample_cloned
       (<[6%positive :=
            OContext
              (mkContext
                 (User (write_slots
                          (mkContext "bob" (Some 4%positive) (Some 5%positive))
                          sample_fields))
                 (ctx_HTTPRequest
                    (write_slots
                       (mkContext "bob" (Some 4%positive) (Some 5%positive))
                       sample_fields))
                 None)]>
          (heap sample_cloned))).
Proof.
  apply (extractCtx_nil_pointer_resets sample_node sample_fields sample_state
           sample_cloned 6%positive
           (mkContext "bob" (Some 4%positive) (Some 5%positive)));
    vm_compute; reflexivity.
Defined.

(** X15 through the sample node. *)
Lemma Write_forwards_once_witness :
  ∃ (e : Entry) (fs : list Field),
    sink (Write sample_runtime sample_node sample_entry sample_fields sample_state).2
    = sink sample_state ++ [(downstream sample_node, e, fs)] ∧
    None = write_error (downstream sample_node) e fs ∧
    Level_ e = Level_ sample_entry ∧ LoggerName e = LoggerName sample_entry ∧
    Caller e = Caller sample_entry ∧ Stack e = Stack sample_entry ∧
    ∃ suffix : string, Message e = Message sample_entry +:+ suffix.
Proof.
  apply (Write_forwards_once sample_runtime sample_node sample_entry sample_fields
           sample_state
           (Write sample_runtime sample_node sample_entry sample_fields
              sample_state).2
           None).
  vm_compute. reflexivity.
Defined.

(** X16 on a root node and a list with a string behind
    [context.httpRequest]. *)
Lemma Write_panic_forwards_nothing_witness :
  sink (Write sample_runtime (root_core true) sample_entry sample_misused_fields
          initial_state).2 = sink initial_state ∧
  stdout (Write sample_runtime (root_core true) sample_entry sample_misused_fields
            initial_state).2 = stdout initial_state ∧
  heap initial_state
  ⊆ heap (Write sample_runtime (root_core true) sample_entry sample_misused_fields
            initial_state).2.
Proof.
  apply (Write_panic_forwards_nothing sample_runtime (root_core true) sample_entry
           sample_misused_fields initial_state
           (Write sample_runtime (root_core true) sample_entry
              sample_misused_fields initial_state).2
           (TypeAssertionError "*stackdriver.HTTPRequest")).
  vm_compute. reflexivity.
Defined.

(** X17 through the sample node. *)
Lemma Write_forwards_no_reserved_key_witness :
  ∃ (e : Entry) (lctx : loc) (cm : Context),
    sink (Write sample_runtime sample_node sample_entry sample_fields sample_state).2
    = sink sample_state ++
        [(downstream sample_node, e, ordinary sample_fields ++ [context_field lctx])] ∧
    Forall (λ f, Key f ∉ reserved_keys)
      (ordinary sample_fields ++ [context_field lctx]) ∧
    heap sample_state !! lctx = None ∧
    heap (Write sample_runtime sample_node sample_entry sample_fields
            sample_state).2 !! lctx = Some (OContext cm).
Proof.
  apply (Write_forwards_no_reserved_key sample_runtime sample_node sample_entry
           sample_fields sample_state
           (Write sample_runtime sample_node sample_entry sample_fields
              sample_state).2
           None).
  vm_compute. reflexivity.
Defined.

(** X18 through the sample node. *)
Lemma With_child_witness :
  SetReportLocation sample_child = SetReportLocation sample_node ∧
  downstream sample_child
  = zapCore_With (downstream sample_node) (ordinary sample_fields) ∧
  bound (downstream sample_child)
  = bound (downstream sample_node) ++ ordinary sample_fields ∧
  (∃ (l : loc) (cm : Context),
     ctx sample_child = Some l ∧ heap sample_state !! l = None ∧
     heap (With sample_node sample_fields sample_state).2 !! l
     = Some (OContext cm)) ∧
  stdout (With sample_node sample_fields sample_state).2 = stdout sample_state ∧
  sink (With sample_node sample_fields sample_state).2 = sink sample_state.
Proof.
  apply (With_child sample_node sample_child sample_fields sample_state
           (With sample_node sample_fields sample_state).2).
  vm_compute. reflexivity.
Defined.

(** X19 for two users. *)
Lemma With_siblings_of_root_witness :
  ∃ (c1 c2 : Core) (s1 s2 : State) (l1 l2 : loc),
    With (root_core false) [LogUser "alice"] initial_state = (Ok c1, s1) ∧
    With (root_core false) [LogUser "bob"] s1 = (Ok c2, s2) ∧
    ctx c1 = Some l1 ∧ ctx c2 = Some l2 ∧ l1 ≠ l2 ∧
    heap s2 !! l1 = Some (OContext (write_slots empty_Context [LogUser "alice"])) ∧
    heap s2 !! l2 = Some (OContext (write_slots empty_Context [LogUser "bob"])).
Proof.
  apply (With_siblings_of_root (root_core false) [LogUser "alice"] [LogUser "bob"]
           initial_state);
    reflexivity.
Defined.

(** X20 for a user and a retry count through a root node. *)
Lemma Write_root_witness :
  ∃ (fields1 : list Field) (s1 : State),
    Write_fields sample_runtime (root_core false) sample_entry sample_user_fields
      initial_state = (Ok fields1, s1) ∧
    let lctx := fresh (dom (heap s1)) in
    let fs := ordinary sample_user_fields ++ [context_field lctx] in
    let e := set_Message sample_entry
               (Message sample_entry +:+
                inline_all sample_runtime
                  (filter (λ f, Key f ≠ "context") (ordinary sample_user_fields))) in
    Write sample_runtime (root_core false) sample_entry sample_user_fields
      initial_state
    = (Ok (write_error (downstream (root_core false)) e fs),
       {| heap := <[lctx := OContext (write_slots empty_Context fields1)]> (heap s1);
          stdout := stdout initial_state ++
            concat (map (recovered_lines sample_runtime)
                      (filter (λ f, Key f ≠ "context")
                         (ordinary sample_user_fields)));
          sink := sink initial_state ++ [(downstream (root_core false), e, fs)] |}).
Proof.
  apply (Write_root sample_runtime (root_core false) sample_entry
           sample_user_fields initial_state);
    reflexivity.
Defined.
